(** * next-server/server/config.ts: the configuration loader

    A shallow embedding of [packages/next/next-server/server/config.ts]:
    the JavaScript values the loader handles, object literals with spread,
    the default configuration, [assignDefaults], [normalizeConfig],
    [loadConfig] and [isTargetLikeServerless], followed by the properties
    the specification states about them. *)

From Stdlib Require Import String Ascii List ZArith Bool Lia DecimalString.
Import ListNotations.
Local Open Scope list_scope.
Local Open Scope string_scope.

(** ** JavaScript values *)

(** Objects are compared by reference by [===] and [!==].  The only
    reference comparison in config.ts has an object of [defaultConfig] on
    one side ([userConfig[key] !== defaultConfig[key]]), so an object
    carries a mark that says whether it is [defaultConfig] itself, the
    object literal stored under a key of [defaultConfig], or any other
    allocation. *)
Inductive ref : Type :=
| Fresh
| DefaultConfig
| DefaultField (key : string).

(** [VFun f] is a function, known by its identity [f]; what calling it does
    is given by the world (see [call_fn]), and [VFun "Object"] is the
    global [Object].  [VObj cls r own] is an object
    whose prototype is [cls.prototype], with own enumerable data properties
    [own]: [cls = "Object"] for an object literal, another name for a class
    instance.  Accessor properties, symbols, array holes, NaN and
    non-integer numbers do not occur in config.ts and are left out. *)
#[local] Unset Elimination Schemes.
Inductive value : Type :=
| VUndefined
| VNull
| VBool (b : bool)
| VNum (n : Z)
| VStr (s : string)
| VFun (f : string)
| VArr (items : list value)
| VObj (cls : string) (r : ref) (own : list (string * value)).
#[local] Set Elimination Schemes.

(** A property list reads like an object literal: a repeated key keeps its
    first position and its last value. *)
Definition props : Type := list (string * value).

Fixpoint lookup (k : string) (l : props) : option value :=
  match l with
  | [] => None
  | (k', v) :: t =>
      match lookup k t with
      | Some x => Some x
      | None => if k' =? k then Some v else None
      end
  end.

Definition lookup_or (d : value) (k : string) (l : props) : value :=
  match lookup k l with Some x => x | None => d end.

Definition has (k : string) (l : props) : bool :=
  match lookup k l with Some _ => true | None => false end.

(** [Object.keys]: each key once, in the order of first appearance.  (That
    JavaScript lists integer-like keys first is left out: the order only
    decides which of the keys [experimental] and [distDir] is visited
    first.) *)
Fixpoint keys (l : props) : list string :=
  match l with
  | [] => []
  | (k, _) :: t => k :: filter (fun j => negb (j =? k)) (keys t)
  end.

(** [o[k] = v] on the own properties of [o]. *)
Definition set (k : string) (v : value) (l : props) : props :=
  if has k l
  then map (fun p => if fst p =? k then (k, v) else p) l
  else (l ++ [(k, v)])%list.

(** [{ ...base, ...add }], given the properties [base] already written. *)
Definition spread_into (base add : props) : props :=
  fold_left (fun acc p => set (fst p) (snd p) acc) add base.

Definition string_of_nat (n : nat) : string :=
  NilZero.string_of_uint (Nat.to_uint n).

Definition string_of_Z (n : Z) : string :=
  NilZero.string_of_int (Z.to_int n).

Fixpoint indexed (i : nat) (l : list value) : props :=
  match l with
  | [] => []
  | v :: t => (string_of_nat i, v) :: indexed (S i) t
  end.

Fixpoint chars (s : string) : list value :=
  match s with
  | EmptyString => []
  | String c t => VStr (String c EmptyString) :: chars t
  end.

(** The own enumerable string-keyed properties of a value: what [...v]
    copies into an object literal and what [Object.keys(v)] lists. *)
Definition spread_of (v : value) : props :=
  match v with
  | VStr s => indexed 0 (chars s)
  | VArr items => indexed 0 items
  | VObj _ _ own => own
  | _ => []
  end.

Definition truthy (v : value) : bool :=
  match v with
  | VUndefined | VNull => false
  | VBool b => b
  | VNum n => negb (n =? 0)%Z
  | VStr s => negb (s =? "")
  | VFun _ | VArr _ | VObj _ _ _ => true
  end.

Definition nullish (v : value) : bool :=
  match v with VUndefined | VNull => true | _ => false end.

(** [typeof v === 'function'] *)
Definition is_function (v : value) : bool :=
  match v with VFun _ => true | _ => false end.

Definition same_ref (a b : ref) : bool :=
  match a, b with
  | DefaultConfig, DefaultConfig => true
  | DefaultField j, DefaultField k => j =? k
  | _, _ => false
  end.

(** [a === b].  Primitives by value, functions by identity, objects by
    their mark: an unmarked object, or an array, is never the same
    reference as an object of [defaultConfig]. *)
Definition strict_eq (a b : value) : bool :=
  match a, b with
  | VUndefined, VUndefined => true
  | VNull, VNull => true
  | VBool x, VBool y => Bool.eqb x y
  | VNum x, VNum y => (x =? y)%Z
  | VStr x, VStr y => x =? y
  | VFun f, VFun g => f =? g
  | VObj _ r _, VObj _ r' _ => same_ref r r'
  | _, _ => false
  end.

(** The members of [Object.prototype] every object literal inherits. *)
Definition object_prototype_members : list string :=
  [ "hasOwnProperty"; "isPrototypeOf"; "propertyIsEnumerable";
    "toLocaleString"; "toString"; "valueOf";
    "__defineGetter__"; "__defineSetter__";
    "__lookupGetter__"; "__lookupSetter__" ].

(** Properties found on the prototype chain of an instance of [cls]:
    [constructor] is [cls]; a Promise has [then]; the methods of
    [Object.prototype] are functions. *)
Definition inherited (cls k : string) : value :=
  if k =? "constructor" then VFun cls
  else if (cls =? "Promise") && (k =? "then") then VFun "Promise.prototype.then"
  else if existsb (String.eqb k) object_prototype_members
       then VFun ("Object.prototype." ++ k)
  else VUndefined.

(** [length] of a string or an array, before the prototype is asked. *)
Definition with_length (n : nat) (cls k : string) : value :=
  if k =? "length" then VNum (Z.of_nat n) else inherited cls k.

(** [v[k]] for a [v] that is neither [null] nor [undefined]: an own
    property, or else what the prototype chain gives.  The two string
    methods config.ts calls are handled by [invoke]. *)
Definition prop (v : value) (k : string) : value :=
  match v with
  | VUndefined | VNull => VUndefined
  | VBool _ => inherited "Boolean" k
  | VNum _ => inherited "Number" k
  | VStr s =>
      lookup_or (with_length (String.length s) "String" k) k
        (indexed 0 (chars s))
  | VFun _ => inherited "Function" k
  | VArr items =>
      lookup_or (with_length (List.length items) "Array" k) k
        (indexed 0 items)
  | VObj cls _ own => lookup_or (inherited cls k) k own
  end.

(** A value inside a template literal.  An object prints the way
    [Object.prototype.toString] prints it and a function by its identity:
    overriding [toString] and the source text of functions are not
    modelled. *)
Fixpoint toString (v : value) : string :=
  match v with
  | VUndefined => "undefined"
  | VNull => "null"
  | VBool b => if b then "true" else "false"
  | VNum n => string_of_Z n
  | VStr s => s
  | VFun f => "function " ++ f
  | VArr items =>
      (fix join (l : list value) : string :=
         match l with
         | [] => ""
         | x :: t =>
             (if nullish x then "" else toString x)
             ++ match t with [] => "" | _ => "," ++ join t end
         end) items
  | VObj _ _ _ => "[object Object]"
  end.

(** ** Strings and paths *)

Definition endsWith (s suffix : string) : bool :=
  (String.length suffix <=? String.length s)%nat
  && (substring (String.length s - String.length suffix)
                (String.length suffix) s =? suffix).

(** [s.slice(a, b)]: a negative index counts from the end. *)
Definition slice (s : string) (a b : Z) : string :=
  let len := Z.of_nat (String.length s) in
  let clip := fun i => if (i <? 0)%Z then Z.max (len + i) 0 else Z.min i len in
  let from := clip a in
  let to := clip b in
  substring (Z.to_nat from) (Z.to_nat (to - from)) s.

Fixpoint contains_char (c : ascii) (s : string) : bool :=
  match s with
  | EmptyString => false
  | String a t => Ascii.eqb a c || contains_char c t
  end.

Fixpoint after_last (c : ascii) (s : string) : string :=
  match s with
  | EmptyString => EmptyString
  | String a t =>
      if contains_char c t then after_last c t
      else if Ascii.eqb a c then t else s
  end.

Fixpoint from_last (c : ascii) (s : string) : string :=
  match s with
  | EmptyString => EmptyString
  | String a t =>
      if contains_char c t then from_last c t
      else if Ascii.eqb a c then s else EmptyString
  end.

(** [path.basename] and [path.extname] of Node, on paths that name a file
    (no trailing separator). *)
Definition basename (p ext : string) : string :=
  let b := after_last "/" p in
  if negb (ext =? "") && negb (b =? ext) && endsWith b ext
  then substring 0 (String.length b - String.length ext) b
  else b.

Definition extname (p : string) : string :=
  match after_last "/" p with
  | EmptyString => EmptyString
  | String _ t => from_last "." t
  end.

(** ** The process: errors, effects and the world around a call *)

Inductive exn : Type :=
| Error (msg : string)          (* [throw new Error(msg)] of config.ts *)
| TypeError (msg : string)      (* raised by the language *)
| Foreign (what : string).      (* raised by a loaded module or a callback *)

Inductive result (A : Type) : Type :=
| Ok (a : A)
| Throw (e : exn).
Arguments Ok {A} a.
Arguments Throw {A} e.

Inductive event : Type :=
| EvFindUp (names : list string) (cwd : string)
| EvRequire (path : string)
| EvCall (f : string) (args : list value)
| EvWarn (line : string).

(** [used] is the flag of the one [execOnce] closure of the module;
    [trace] is what the process has done so far, oldest first. *)
Record state : Type := mkState { used : bool; trace : list event }.

Definition initial_state : state := {| used := false; trace := [] |}.

(** What foreign code does: a module being loaded, a function of the user's
    configuration being called.  It returns a value or raises something of
    its own, never one of the errors of config.ts. *)
Inductive outcome : Type :=
| Returns (v : value)
| Raises (what : string).

(** What a call cannot see in its arguments: the file system above [cwd],
    the module a path loads, and what a function value does when called. *)
Record world : Type := mkWorld {
  findUp_sync : list string -> string -> option string;
  require : string -> outcome;
  call_fn : string -> list value -> outcome
}.

Definition M (A : Type) : Type := state -> result A * state.

Definition ret {A} (a : A) : M A := fun s => (Ok a, s).

Definition throw {A} (e : exn) : M A := fun s => (Throw e, s).

Definition bind {A B} (m : M A) (k : A -> M B) : M B :=
  fun s =>
    match m s with
    | (Ok a, s') => k a s'
    | (Throw e, s') => (Throw e, s')
    end.

Notation "x <- m ;; k" := (bind m (fun x => k))
  (at level 61, m at next level, right associativity).
Notation "m ;; k" := (bind m (fun _ => k))
  (at level 61, right associativity).

Definition log (e : event) : M unit :=
  fun s => (Ok tt, {| used := used s; trace := (trace s ++ [e])%list |}).

Definition foreign (o : outcome) : M value :=
  match o with
  | Returns v => ret v
  | Raises what => throw (Foreign what)
  end.

(** [v.k] *)
Definition get (v : value) (k : string) : M value :=
  if nullish v
  then throw (TypeError ("Cannot read property '" ++ k ++ "' of " ++ toString v))
  else ret (prop v k).

(** [f(...args)] *)
Definition call (w : world) (f : value) (args : list value) : M value :=
  match f with
  | VFun name => log (EvCall name args) ;; foreign (call_fn w name args)
  | _ => throw (TypeError (toString f ++ " is not a function"))
  end.

(** [recv.name(...args)].  The two string methods config.ts calls are built
    in; on any other receiver the property is read and called (the receiver
    itself is not passed on). *)
Definition invoke (w : world) (recv : value) (name : string)
    (args : list value) : M value :=
  match recv, args with
  | VStr s, [VStr suffix] =>
      if name =? "endsWith" then ret (VBool (endsWith s suffix))
      else f <- get recv name ;; call w f args
  | VStr s, [VNum a; VNum b] =>
      if name =? "slice" then ret (VStr (slice s a b))
      else f <- get recv name ;; call w f args
  | _, _ => f <- get recv name ;; call w f args
  end.

(** [console.warn(line)] *)
Definition console_warn (line : string) : M unit := log (EvWarn line).

(** [findUp.sync(names, { cwd })] *)
Definition findUp (w : world) (names : list string) (cwd : string)
    : M (option string) :=
  log (EvFindUp names cwd) ;; ret (findUp_sync w names cwd).

(** [path && path.length] *)
Definition found (path : option string) : bool :=
  match path with
  | Some p => negb (String.length p =? 0)%nat
  | None => false
  end.

(** Modelled from the spec: [execOnce] of ../lib/utils, which is not among
    the sources.  The spec describes the flag it keeps as process-wide,
    set-once and never reset, so that the wrapped function runs at most
    once per process: the first call sets the flag and runs the function,
    every later call does nothing. *)
Definition execOnce (fn : M unit) : M unit :=
  fun s =>
    if used s then (Ok tt, s)
    else fn {| used := true; trace := trace s |}.

(** Modelled from the spec: [CONFIG_FILE] of ../lib/constants, which is not
    among the sources.  The spec names the file [next.config.js]. *)
Definition CONFIG_FILE : string := "next.config.js".

(** ** config.ts *)

(** What the default configuration reads from the host when the module is
    loaded: [Number(process.env.CIRCLE_NODE_TOTAL)] when that is a number
    ([None] otherwise) and the length of [os.cpus()]. *)
Record host : Type := mkHost { circle_node_total : option Z; os_cpus : nat }.

Definition dquote : string := String (ascii_of_nat 34) EmptyString.

Definition targets : list string :=
  ["server"; "serverless"; "experimental-serverless-trace"].

Definition reactModes : list string := ["legacy"; "blocking"; "concurrent"].

(** [list.includes(v)] for a list of strings *)
Definition includes (l : list string) (v : value) : bool :=
  existsb (fun t => strict_eq v (VStr t)) l.

(** [list.join(', ')] *)
Definition join_comma (l : list string) : string := String.concat ", " l.

Section Config.

Variable h : host.

(** [Math.max(1, (Number(process.env.CIRCLE_NODE_TOTAL) ||
    (os.cpus() || { length: 1 }).length) - 1)], for a
    [CIRCLE_NODE_TOTAL] that is an integer a double holds exactly: the
    source computes in doubles, so a fractional value, or one beyond
    2^53, is outside this model.  No property below depends on the
    number. *)
Definition default_cpus : Z :=
  Z.max 1
    ((match circle_node_total h with
      | Some n => if (n =? 0)%Z then Z.of_nat (os_cpus h) else n
      | None => Z.of_nat (os_cpus h)
      end) - 1).

Definition default_props : props :=
  [ ("env", VArr []);
    ("webpack", VNull);
    ("webpackDevMiddleware", VNull);
    ("distDir", VStr ".next");
    ("assetPrefix", VStr "");
    ("configOrigin", VStr "default");
    ("useFileSystemPublicRoutes", VBool true);
    ("generateBuildId", VFun "defaultConfig.generateBuildId");
    ("generateEtags", VBool true);
    ("pageExtensions", VArr [VStr "tsx"; VStr "ts"; VStr "jsx"; VStr "js"]);
    ("target", VStr "server");
    ("poweredByHeader", VBool true);
    ("compress", VBool true);
    ("devIndicators", VObj "Object" (DefaultField "devIndicators")
       [ ("buildActivity", VBool true); ("autoPrerender", VBool true) ]);
    ("onDemandEntries", VObj "Object" (DefaultField "onDemandEntries")
       [ ("maxInactiveAge", VNum (60 * 1000)); ("pagesBufferLength", VNum 2) ]);
    ("amp", VObj "Object" (DefaultField "amp") [ ("canonicalBase", VStr "") ]);
    ("exportTrailingSlash", VBool false);
    ("experimental", VObj "Object" (DefaultField "experimental")
       [ ("ampBindInitData", VBool false);
         ("cpus", VNum default_cpus);
         ("catchAllRouting", VBool false);
         ("css", VBool false);
         ("documentMiddleware", VBool false);
         ("granularChunks", VBool false);
         ("modern", VBool false);
         ("plugins", VBool false);
         ("profiling", VBool false);
         ("sprFlushToDisk", VBool true);
         ("deferScripts", VBool false);
         ("reactMode", VStr "legacy");
         ("workerThreads", VBool false) ]);
    ("future", VObj "Object" (DefaultField "future")
       [ ("excludeDefaultMomentLocales", VBool false) ]);
    ("serverRuntimeConfig", VObj "Object" (DefaultField "serverRuntimeConfig") []);
    ("publicRuntimeConfig", VObj "Object" (DefaultField "publicRuntimeConfig") []);
    ("reactStrictMode", VBool false) ].

Definition defaultConfig : value := VObj "Object" DefaultConfig default_props.

(** The three lines of the warning; the colours [chalk] adds are left out. *)
Definition experimental_warning_lines : list string :=
  [ "Warning: You have enabled experimental feature(s).";
    "Experimental features are not covered by semver, and may cause unexpected or broken application behavior. Use them at your own risk.";
    "" ].

Definition experimentalWarning : M unit :=
  execOnce
    (console_warn (nth 0 experimental_warning_lines "") ;;
     console_warn (nth 1 experimental_warning_lines "") ;;
     console_warn (nth 2 experimental_warning_lines "")).

Definition reserved_distDir_message : string :=
  "The 'public' directory is reserved in Next.js and can not be set as the 'distDir'. https://err.sh/zeit/next.js/can-not-output-to-public".

(** [maybeObject.constructor === Object], guarded by [!!maybeObject] *)
Definition is_plain_object (maybeObject : value) : bool :=
  truthy maybeObject
  && strict_eq (prop maybeObject "constructor") (VFun "Object").

(** [{ ...(defaultConfig[key] || {}), ...userValue }] *)
Definition merge_over_default (key : string) (userValue : value) : value :=
  let d := prop defaultConfig key in
  VObj "Object" Fresh
    (spread_into
       (spread_into [] (spread_of (if truthy d then d else VObj "Object" Fresh [])))
       (spread_of userValue)).

(** The body of the [forEach] of [assignDefaults]; [userConfig] holds the
    own properties of the object being filled in, of which [key] is one. *)
Definition assign_key (key : string) (userConfig : props) : M props :=
  (if (key =? "experimental")
      && truthy (lookup_or VUndefined key userConfig)
      && negb (strict_eq (lookup_or VUndefined key userConfig)
                         (prop defaultConfig key))
   then experimentalWarning
   else ret tt) ;;
  if (key =? "distDir")
     && strict_eq (lookup_or VUndefined key userConfig) (VStr "public")
  then throw (Error reserved_distDir_message)
  else
    let maybeObject := lookup_or VUndefined key userConfig in
    if is_plain_object maybeObject
    then ret (set key (merge_over_default key maybeObject) userConfig)
    else ret userConfig.

Fixpoint forEach (ks : list string) (body : string -> props -> M props)
    (o : props) : M props :=
  match ks with
  | [] => ret o
  | k :: t => o' <- body k o ;; forEach t body o'
  end.

Definition assignDefaults (userConfig : props) : M value :=
  userConfig' <- forEach (keys userConfig) assign_key userConfig ;;
  ret (VObj "Object" Fresh
         (spread_into (spread_into [] (spread_of defaultConfig)) userConfig')).

(** [{ configOrigin: origin, ...userConfig }] *)
Definition with_origin (origin : string) (userConfig : value) : props :=
  spread_into [("configOrigin", VStr origin)] (spread_of userConfig).

Definition promise_message : string :=
  "> Promise returned in next config. https://err.sh/zeit/next.js/promise-in-next-config".

Definition helpers : value :=
  VObj "Object" Fresh [("defaultConfig", defaultConfig)].

Definition normalizeConfig (w : world) (phase : string) (config : value)
    : M value :=
  if is_function config then
    config' <- call w config [VStr phase; helpers] ;;
    then_ <- get config' "then" ;;
    if is_function then_
    then throw (Error promise_message)
    else ret config'
  else ret config.

(** [o.k = x], in place *)
Definition put (o : value) (k : string) (x : value) : value :=
  match o with
  | VObj cls r own => VObj cls r (set k x own)
  | _ => o
  end.

Definition invalid_target_message (target : value) : string :=
  "Specified target is invalid. Provided: " ++ dquote ++ toString target
  ++ dquote ++ " should be one of " ++ join_comma targets.

(** lines 215-221 *)
Definition check_target (userConfig : value) : M unit :=
  target <- get userConfig "target" ;;
  if truthy target && negb (includes targets target)
  then throw (Error (invalid_target_message target))
  else ret tt.

(** lines 223-230 *)
Definition normalize_canonicalBase (w : world) (userConfig : value)
    : M value :=
  amp <- get userConfig "amp" ;;
  if truthy amp then
    canonicalBase <- get amp "canonicalBase" ;;
    if truthy canonicalBase then
      (* userConfig.amp = userConfig.amp || {} *)
      let userConfig := put userConfig "amp" amp in
      (* userConfig.amp.canonicalBase = (... ? ... : ...) || '' *)
      ends <- invoke w canonicalBase "endsWith" [VStr "/"] ;;
      stripped <- (if truthy ends
                   then invoke w canonicalBase "slice" [VNum 0; VNum (-1)]
                   else ret canonicalBase) ;;
      ret (put userConfig "amp"
             (put amp "canonicalBase"
                (if truthy stripped then stripped else VStr "")))
    else ret userConfig
  else ret userConfig.

Definition runtime_config_message : string :=
  "Cannot use publicRuntimeConfig or serverRuntimeConfig with target=serverless https://err.sh/zeit/next.js/serverless-publicRuntimeConfig".

(** [v && Object.keys(v).length !== 0] *)
Definition non_empty (v : value) : bool :=
  truthy v && negb (List.length (keys (spread_of v)) =? 0)%nat.

(** lines 232-244 *)
Definition check_runtime_config (userConfig : value) : M unit :=
  target <- get userConfig "target" ;;
  publicRuntimeConfig <- get userConfig "publicRuntimeConfig" ;;
  serverRuntimeConfig <- get userConfig "serverRuntimeConfig" ;;
  if truthy target
     && negb (strict_eq target (VStr "server"))
     && (non_empty publicRuntimeConfig || non_empty serverRuntimeConfig)
  then throw (Error runtime_config_message)
  else ret tt.

Definition invalid_reactMode_message (reactMode : value) : string :=
  "Specified React Mode is invalid. Provided: " ++ toString reactMode
  ++ " should be one of " ++ join_comma reactModes.

(** lines 246-256 *)
Definition check_reactMode (userConfig : value) : M unit :=
  experimental <- get userConfig "experimental" ;;
  if truthy experimental then
    reactMode <- get experimental "reactMode" ;;
    if truthy reactMode && negb (includes reactModes reactMode)
    then throw (Error (invalid_reactMode_message reactMode))
    else ret tt
  else ret tt.

(** lines 215-256: the checks on a configuration loaded from a file, which
    hand on the configuration with [amp.canonicalBase] rewritten. *)
Definition validate (w : world) (userConfig : value) : M value :=
  check_target userConfig ;;
  userConfig <- normalize_canonicalBase w userConfig ;;
  check_runtime_config userConfig ;;
  check_reactMode userConfig ;;
  ret userConfig.

(** lines 210-214: [require(path)], then [normalizeConfig] on its default
    export, or on the module when it has none. *)
Definition load_userConfig (w : world) (phase path : string) : M value :=
  log (EvRequire path) ;;
  userConfigModule <- foreign (require w path) ;;
  default <- get userConfigModule "default" ;;
  normalizeConfig w phase (if truthy default then default else userConfigModule).

Definition configBaseName : string :=
  basename CONFIG_FILE (extname CONFIG_FILE).

Definition unsupported_message (nonJsPath : string) : string :=
  "Configuring Next.js via '" ++ basename nonJsPath ""
  ++ "' is not supported. Please replace the file with 'next.config.js' or 'next.config.ts'.".

Definition loadConfig (w : world) (phase dir : string) (customConfig : value)
    : M value :=
  if truthy customConfig then
    assignDefaults (with_origin "server" customConfig)
  else
    path <- findUp w [configBaseName ++ ".js"; configBaseName ++ ".ts"] dir ;;
    if found path then
      userConfig <- load_userConfig w phase (match path with Some p => p | None => "" end) ;;
      userConfig <- validate w userConfig ;;
      assignDefaults (with_origin CONFIG_FILE userConfig)
    else
      nonJsPath <- findUp w [configBaseName ++ ".jsx"; configBaseName ++ ".tsx";
                             configBaseName ++ ".json"] dir ;;
      if found nonJsPath
      then throw (Error (unsupported_message
                           (match nonJsPath with Some p => p | None => "" end)))
      else ret defaultConfig.

Definition isTargetLikeServerless (target : string) : bool :=
  let isServerless := target =? "serverless" in
  let isServerlessTrace := target =? "experimental-serverless-trace" in
  isServerless || isServerlessTrace.

(** A process calls [loadConfig] any number of times; an error ends the
    call, not the process, and the state is carried to the next call. *)
Record invocation : Type := mkInvocation {
  inv_world : world;
  inv_phase : string;
  inv_dir : string;
  inv_custom : value
}.

Fixpoint run_loads (calls : list invocation) (s : state) : state :=
  match calls with
  | [] => s
  | c :: rest =>
      run_loads rest
        (snd (loadConfig (inv_world c) (inv_phase c) (inv_dir c) (inv_custom c) s))
  end.

End Config.

(** * The vocabulary of the properties *)

(** ** What a computation may do to the process state, and what it throws

    [respects R m]: whatever [m] returns or throws, the state it leaves is
    related by [R] to the state it started from. *)

Definition respects (R : state -> state -> Prop) {A} (m : M A) : Prop :=
  forall s, R s (snd (m s)).

(** What a computation throws, when it throws. *)
Definition throws_only (P : exn -> Prop) {A} (m : M A) : Prop :=
  forall s e s', m s = (Throw e, s') -> P e.

(** ** The merger, without its effects *)

Section MergerVocabulary.

Variable h : host.

(** What [assignDefaults] stores under [key] for the user's value. *)
Definition merged_value (key : string) (userValue : value) : value :=
  if is_plain_object userValue
  then merge_over_default h key userValue
  else userValue.

(** One round of the [forEach] that does not throw. *)
Definition assign_pure (key : string) (o : props) : props :=
  if is_plain_object (lookup_or VUndefined key o)
  then set key (merge_over_default h key (lookup_or VUndefined key o)) o
  else o.

(** [userConfig.distDir === 'public'] on the own properties [u]. *)
Definition sets_reserved_distDir (u : props) : bool :=
  strict_eq (lookup_or VUndefined "distDir" u) (VStr "public").

(** The properties the object holds when the [forEach] is over. *)
Definition assigned (u : props) : props :=
  fold_left (fun o k => assign_pure k o) (keys u) u.

End MergerVocabulary.

(** ** The warning and the trace *)

Fixpoint warn_lines (tr : list event) : list string :=
  match tr with
  | [] => []
  | EvWarn line :: t => line :: warn_lines t
  | _ :: t => warn_lines t
  end.

(** Every line the process has printed with [console.warn]. *)
Definition warnings (s : state) : list string := warn_lines (trace s).

(** How often the experimental-feature warning has been printed: the
    number of times its first line appears. *)
Definition warning_count (s : state) : nat :=
  List.length
    (filter (String.eqb (nth 0 experimental_warning_lines "")) (warnings s)).

(** A step that prints nothing but warnings and does nothing else. *)
Definition appends_warnings (s s' : state) : Prop :=
  exists lines, trace s' = (trace s ++ map EvWarn lines)%list.

(** A step that leaves the flag and the printed warnings alone, or finds
    the flag unset, sets it and prints the warning once. *)
Definition once_only (s s' : state) : Prop :=
  (used s' = used s /\ warnings s' = warnings s)
  \/ (used s = false /\ used s' = true
      /\ warnings s' = (warnings s ++ experimental_warning_lines)%list).

(** ** The path through a configuration file *)

(** The names [loadConfig] looks for, first the supported ones. *)
Definition supported_names : list string :=
  [configBaseName ++ ".js"; configBaseName ++ ".ts"].

Definition unsupported_names : list string :=
  [configBaseName ++ ".jsx"; configBaseName ++ ".tsx"; configBaseName ++ ".json"].

(** The state once [findUp.sync(names, { cwd })] has been called. *)
Definition looked_up (names : list string) (cwd : string) (s : state) : state :=
  {| used := used s; trace := (trace s ++ [EvFindUp names cwd])%list |}.

(** The own property [distDir] of a user configuration is ['public']. *)
Definition own_distDir_is_public (userConfig : value) : bool :=
  strict_eq (lookup_or VUndefined "distDir" (spread_of userConfig))
            (VStr "public").

(** [canonicalBase.endsWith('/') ? canonicalBase.slice(0, -1) : canonicalBase] *)
Definition strip_trailing_slash (s : string) : string :=
  if endsWith s "/" then slice s 0 (-1) else s.

(** A record with at least one property. *)
Definition non_empty_record (v : value) : bool :=
  match v with
  | VObj _ _ (_ :: _) => true
  | _ => false
  end.

(** ** The experimental block, and values that hold the same properties *)

(** [userConfig.experimental && userConfig.experimental !==
    defaultConfig.experimental], on the own properties [u]. *)
Definition warns_experimental (h : host) (u : props) : bool :=
  truthy (lookup_or VUndefined "experimental" u)
  && negb (strict_eq (lookup_or VUndefined "experimental" u)
                     (prop (defaultConfig h) "experimental")).

(** The state once [experimentalWarning] has been called. *)
Definition after_warning (s : state) : state :=
  if used s then s
  else {| used := true;
          trace := (trace s ++ map EvWarn experimental_warning_lines)%list |}.

(** The same value, or two plain records with the same own properties. *)
Definition same_properties (a b : value) : Prop :=
  a = b
  \/ (is_plain_object a = true /\ is_plain_object b = true
      /\ forall j, lookup j (spread_of a) = lookup j (spread_of b)).

(** ** Examples to run the loader on *)

Definition example_host : host := mkHost None 4.

(** An object literal. *)
Definition record (l : props) : value := VObj "Object" Fresh l.

(** A directory that holds [next.config.js], whose module exports [m];
    functions of the configuration return [returned]. *)
Definition world_with_config (m : value) (returned : outcome) : world :=
  mkWorld
    (fun names _ =>
       if existsb (String.eqb "next.config.js") names
       then Some "/app/next.config.js" else None)
    (fun _ => Returns m)
    (fun _ _ => returned).

(** A directory tree with the one file [name] in it. *)
Definition world_with_file (name : string) : world :=
  mkWorld
    (fun names _ =>
       if existsb (String.eqb name) names then Some ("/app/" ++ name) else None)
    (fun _ => Raises "cannot load")
    (fun _ _ => Raises "not a function of this world").

(** * Properties *)

(** ** Object literals *)

Section Objects.

Implicit Types (k j : string) (v : value) (l base add : props).

Lemma lookup_app k l1 l2 :
  lookup k (l1 ++ l2)%list =
  match lookup k l2 with Some x => Some x | None => lookup k l1 end.
Proof.
  induction l1 as [|[k' v'] t IH]; simpl.
  - destruct (lookup k l2); reflexivity.
  - rewrite IH. destruct (lookup k l2); reflexivity.
Qed.

Lemma lookup_replace k v j l :
  lookup j (map (fun p => if fst p =? k then (k, v) else p) l) =
  if k =? j then (if has k l then Some v else None) else lookup j l.
Proof.
  unfold has. induction l as [|[k' v'] t IH]; simpl.
  - destruct (k =? j); reflexivity.
  - rewrite IH. clear IH.
    destruct (String.eqb_spec k' k) as [->|Hk']; simpl;
      destruct (String.eqb_spec k j) as [->|Hkj]; simpl;
      try rewrite String.eqb_refl;
      try (apply String.eqb_neq in Hk'; rewrite Hk');
      destruct (lookup j t); reflexivity.
Qed.

Lemma lookup_set k v j l :
  lookup j (set k v l) = if k =? j then Some v else lookup j l.
Proof.
  unfold set. destruct (has k l) eqn:Hhas.
  - rewrite lookup_replace, Hhas. reflexivity.
  - rewrite lookup_app. simpl. destruct (String.eqb_spec k j) as [->|Hkj].
    + reflexivity.
    + destruct (lookup j l); reflexivity.
Qed.

Lemma lookup_spread_into j add : forall base,
  lookup j (spread_into base add) =
  match lookup j add with Some x => Some x | None => lookup j base end.
Proof.
  unfold spread_into.
  induction add as [|[k v] t IH]; intros base; simpl.
  - reflexivity.
  - rewrite IH. destruct (lookup j t); [reflexivity|].
    rewrite lookup_set. destruct (k =? j); reflexivity.
Qed.

Lemma lookup_spread_literal j l :
  lookup j (spread_into [] l) = lookup j l.
Proof. rewrite lookup_spread_into. destruct (lookup j l); reflexivity. Qed.

Lemma has_set k v j l : has j (set k v l) = (k =? j) || has j l.
Proof.
  unfold has. rewrite lookup_set. destruct (k =? j); reflexivity.
Qed.

Lemma In_keys k l : In k (keys l) <-> has k l = true.
Proof.
  unfold has. induction l as [|[k' v'] t IH]; simpl.
  - split; [tauto | discriminate].
  - rewrite filter_In, IH. destruct (lookup k t).
    + split; [reflexivity | intros _].
      destruct (String.eqb_spec k' k) as [->|Hk]; [now left | right].
      split; [reflexivity|]. apply String.eqb_neq in Hk.
      rewrite String.eqb_sym, Hk. reflexivity.
    + destruct (String.eqb_spec k' k) as [->|Hk].
      * split; [reflexivity | now left].
      * split; [|discriminate]. intros [H|[H _]]; [contradiction | discriminate].
Qed.

Lemma NoDup_filter {A} (f : A -> bool) (l : list A) :
  NoDup l -> NoDup (filter f l).
Proof.
  induction 1 as [|x l Hx Hl IH]; simpl; [constructor|].
  destruct (f x); [|assumption].
  constructor; [|assumption]. rewrite filter_In. tauto.
Qed.

Lemma NoDup_keys l : NoDup (keys l).
Proof.
  induction l as [|[k v] t IH]; simpl; constructor.
  - rewrite filter_In. intros [_ H]. rewrite String.eqb_refl in H. discriminate.
  - apply NoDup_filter, IH.
Qed.

Lemma keys_nil_iff l : keys l = [] <-> l = [].
Proof. destruct l as [|[k v] t]; simpl; split; congruence. Qed.

Lemma prop_put_other o k x j : k <> j -> prop (put o k x) j = prop o j.
Proof.
  intros Hkj. destruct o; try reflexivity. simpl. unfold lookup_or.
  rewrite lookup_set. apply String.eqb_neq in Hkj. rewrite Hkj. reflexivity.
Qed.

Lemma prop_put_same cls r own k x :
  prop (put (VObj cls r own) k x) k = x.
Proof.
  simpl. unfold lookup_or. rewrite lookup_set, String.eqb_refl. reflexivity.
Qed.

End Objects.

(** ** Sequencing *)

Lemma bind_Ok {A B} (m : M A) (k : A -> M B) s a s1 :
  m s = (Ok a, s1) -> bind m k s = k a s1.
Proof. unfold bind. intros ->. reflexivity. Qed.

Lemma bind_Throw {A B} (m : M A) (k : A -> M B) s e s1 :
  m s = (Throw e, s1) -> bind m k s = (Throw e, s1).
Proof. unfold bind. intros ->. reflexivity. Qed.

Lemma bind_Ok_inv {A B} (m : M A) (k : A -> M B) s b s2 :
  bind m k s = (Ok b, s2) ->
  exists a s1, m s = (Ok a, s1) /\ k a s1 = (Ok b, s2).
Proof.
  unfold bind. destruct (m s) as [[a|e] s1]; intros H.
  - exists a, s1. split; [reflexivity | exact H].
  - discriminate H.
Qed.

Lemma get_defined v k s :
  nullish v = false -> get v k s = (Ok (prop v k), s).
Proof. unfold get. intros ->. reflexivity. Qed.

Lemma truthy_not_nullish v : truthy v = true -> nullish v = false.
Proof. destruct v; simpl; congruence. Qed.

Lemma truthy_prop_not_nullish v k : truthy (prop v k) = true -> nullish v = false.
Proof. destruct v; simpl; congruence. Qed.

(** ** What a computation may do to the process state *)

Section Respects.

Variable h : host.
Variable R : state -> state -> Prop.
Hypothesis R_refl : forall s, R s s.
Hypothesis R_trans : forall a b c, R a b -> R b c -> R a c.
Hypothesis R_warning : respects R (experimentalWarning).
Hypothesis R_foreign : forall e,
  match e with EvWarn _ => False | _ => True end -> respects R (log e).

Lemma respects_ret {A} (a : A) : respects R (ret a).
Proof. intros s. apply R_refl. Qed.

Lemma respects_throw {A} (e : exn) : respects R (@throw A e).
Proof. intros s. apply R_refl. Qed.

Lemma respects_bind {A B} (m : M A) (k : A -> M B) :
  respects R m -> (forall a, respects R (k a)) -> respects R (bind m k).
Proof.
  intros Hm Hk s. unfold bind. specialize (Hm s).
  destruct (m s) as [[a|e] s1]; simpl in *.
  - eapply R_trans; [exact Hm | apply Hk].
  - exact Hm.
Qed.

Lemma respects_get v k : respects R (get v k).
Proof. unfold get. destruct (nullish v); [apply respects_throw | apply respects_ret]. Qed.

Lemma respects_foreign o : respects R (foreign o).
Proof. destruct o; [apply respects_ret | apply respects_throw]. Qed.

Ltac respects_step :=
  match goal with
  | |- respects _ (bind _ _) => apply respects_bind; [|intros ?]
  | |- respects _ (ret _) => apply respects_ret
  | |- respects _ (throw _) => apply respects_throw
  | |- respects _ (get _ _) => apply respects_get
  | |- respects _ (foreign _) => apply respects_foreign
  | |- respects _ experimentalWarning => apply R_warning
  | |- respects _ (log _) => apply R_foreign; exact I
  | |- respects _ (if ?b then _ else _) => destruct b
  | |- respects _ (match ?x with _ => _ end) => destruct x
  end.

Lemma respects_call w f args : respects R (call w f args).
Proof. unfold call. repeat respects_step. Qed.

Lemma respects_invoke w recv name args : respects R (invoke w recv name args).
Proof.
  unfold invoke.
  repeat (respects_step || apply respects_call).
Qed.

Lemma respects_forEach body :
  (forall k o, respects R (body k o)) ->
  forall ks o, respects R (forEach ks body o).
Proof.
  intros Hbody. induction ks as [|k t IH]; intros o; simpl.
  - apply respects_ret.
  - apply respects_bind; [apply Hbody | intros o'; apply IH].
Qed.

Lemma respects_assign_key key o : respects R (assign_key h key o).
Proof. unfold assign_key. repeat respects_step. Qed.

Lemma respects_assignDefaults u : respects R (assignDefaults h u).
Proof.
  unfold assignDefaults. apply respects_bind.
  - apply respects_forEach. apply respects_assign_key.
  - intros ?. apply respects_ret.
Qed.

Lemma respects_normalizeConfig w phase config :
  respects R (normalizeConfig h w phase config).
Proof.
  unfold normalizeConfig. repeat (respects_step || apply respects_call).
Qed.

Lemma respects_validate w u : respects R (validate w u).
Proof.
  unfold validate, check_target, normalize_canonicalBase,
    check_runtime_config, check_reactMode.
  repeat (respects_step || apply respects_invoke).
Qed.

Lemma respects_load_userConfig w phase path :
  respects R (load_userConfig h w phase path).
Proof.
  unfold load_userConfig.
  repeat (respects_step || apply respects_normalizeConfig).
Qed.

Lemma respects_findUp w names cwd : respects R (findUp w names cwd).
Proof. unfold findUp. repeat respects_step. Qed.

Lemma respects_loadConfig w phase dir custom :
  respects R (loadConfig h w phase dir custom).
Proof.
  unfold loadConfig.
  repeat (respects_step || apply respects_assignDefaults
          || apply respects_findUp || apply respects_load_userConfig
          || apply respects_validate).
Qed.

End Respects.

(** ** The merger, without its effects *)

Section Merger.

Variable h : host.

Lemma experimentalWarning_returns s :
  exists s1, experimentalWarning s = (Ok tt, s1).
Proof.
  unfold experimentalWarning, execOnce.
  destruct (used s); eexists; reflexivity.
Qed.

Lemma assign_key_run key o s :
  exists s1,
    assign_key h key o s =
    (if (key =? "distDir") && sets_reserved_distDir o
     then Throw (Error reserved_distDir_message)
     else Ok (assign_pure h key o), s1).
Proof.
  unfold assign_key, sets_reserved_distDir, assign_pure.
  match goal with
  | |- exists s1, bind ?m ?k s = _ =>
      assert (Hm : exists s1, m s = (Ok tt, s1))
  end.
  { destruct (_ && _ && _).
    - apply experimentalWarning_returns.
    - eexists; reflexivity. }
  destruct Hm as [s1 Hm]. exists s1. rewrite (bind_Ok _ _ _ _ _ Hm). clear Hm.
  destruct (String.eqb_spec key "distDir") as [->|Hk]; simpl.
  - destruct (strict_eq (lookup_or VUndefined "distDir" o) (VStr "public"));
      [reflexivity|].
    destruct (is_plain_object _); reflexivity.
  - destruct (is_plain_object _); reflexivity.
Qed.

Lemma lookup_assign_pure k j o :
  lookup j (assign_pure h k o) =
  if k =? j then option_map (merged_value h k) (lookup j o) else lookup j o.
Proof.
  unfold assign_pure, merged_value, lookup_or.
  destruct (String.eqb_spec k j) as [->|Hkj].
  - destruct (lookup j o) as [uv|] eqn:Hj; simpl.
    + destruct (is_plain_object uv).
      * rewrite lookup_set, String.eqb_refl. reflexivity.
      * exact Hj.
    + exact Hj.
  - destruct (is_plain_object _); [|reflexivity].
    rewrite lookup_set. apply String.eqb_neq in Hkj. rewrite Hkj. reflexivity.
Qed.

Lemma reserved_assign_pure k o :
  (k =? "distDir") && sets_reserved_distDir o = false ->
  sets_reserved_distDir (assign_pure h k o) = sets_reserved_distDir o.
Proof.
  unfold sets_reserved_distDir, lookup_or. intros H.
  rewrite lookup_assign_pure.
  destruct (String.eqb_spec k "distDir") as [->|Hk]; [|reflexivity].
  simpl in H.
  destruct (lookup "distDir" o) as [uv|]; simpl; [|reflexivity].
  rewrite H. unfold merged_value, merge_over_default.
  destruct (is_plain_object uv); [reflexivity | exact H].
Qed.

Lemma forEach_assign_key_run ks : forall o s,
  exists s1,
    forEach ks (assign_key h) o s =
    (if existsb (fun k => k =? "distDir") ks && sets_reserved_distDir o
     then Throw (Error reserved_distDir_message)
     else Ok (fold_left (fun o k => assign_pure h k o) ks o), s1).
Proof.
  induction ks as [|k t IH]; intros o s; cbn [forEach existsb fold_left].
  - exists s. reflexivity.
  - destruct (assign_key_run k o s) as [s1 Hk].
    destruct ((k =? "distDir") && sets_reserved_distDir o) eqn:Hres.
    + exists s1. rewrite (bind_Throw _ _ _ _ _ Hk).
      apply andb_true_iff in Hres as [-> ->]. reflexivity.
    + rewrite (bind_Ok _ _ _ _ _ Hk).
      destruct (IH (assign_pure h k o) s1) as [s2 Ht]. exists s2. rewrite Ht.
      rewrite (reserved_assign_pure _ _ Hres).
      destruct (k =? "distDir"); cbn [orb andb] in *;
        [rewrite Hres, andb_false_r|]; reflexivity.
Qed.

Lemma lookup_fold_assign_pure j ks : forall o,
  NoDup ks ->
  lookup j (fold_left (fun o k => assign_pure h k o) ks o) =
  if existsb (String.eqb j) ks
  then option_map (merged_value h j) (lookup j o)
  else lookup j o.
Proof.
  induction ks as [|k t IH]; intros o Hnd; simpl; [reflexivity|].
  inversion Hnd as [|? ? Hk Ht]; subst.
  rewrite (IH _ Ht), lookup_assign_pure, (String.eqb_sym j k).
  destruct (String.eqb_spec k j) as [->|Hkj]; simpl; [|reflexivity].
  destruct (existsb (String.eqb j) t) eqn:Hex; [|reflexivity].
  exfalso. apply Hk. apply existsb_exists in Hex as [x [Hx Hjx]].
  apply String.eqb_eq in Hjx. subst. exact Hx.
Qed.

Lemma lookup_assigned j u :
  lookup j (assigned h u) = option_map (merged_value h j) (lookup j u).
Proof.
  unfold assigned. rewrite lookup_fold_assign_pure by apply NoDup_keys.
  destruct (existsb (String.eqb j) (keys u)) eqn:Hex; [reflexivity|].
  destruct (lookup j u) eqn:Hj; [|reflexivity]. exfalso.
  assert (Hin : In j (keys u)) by (apply In_keys; unfold has; now rewrite Hj).
  assert (existsb (String.eqb j) (keys u) = true) as Hex'.
  { apply existsb_exists. exists j. split; [exact Hin | apply String.eqb_refl]. }
  congruence.
Qed.

Lemma reserved_in_keys u :
  sets_reserved_distDir u = true ->
  existsb (fun k => k =? "distDir") (keys u) = true.
Proof.
  unfold sets_reserved_distDir, lookup_or. intros H.
  apply existsb_exists. exists "distDir". split; [|reflexivity].
  apply In_keys. unfold has. destruct (lookup "distDir" u); [reflexivity|].
  discriminate H.
Qed.

(** [assignDefaults] throws exactly when [distDir] is ['public'], and
    otherwise returns the defaults overlaid with [assigned]. *)
Lemma assignDefaults_run u s :
  exists s1,
    assignDefaults h u s =
    (if sets_reserved_distDir u
     then Throw (Error reserved_distDir_message)
     else Ok (VObj "Object" Fresh
                (spread_into (spread_into [] (default_props h)) (assigned h u))),
     s1).
Proof.
  unfold assignDefaults.
  destruct (forEach_assign_key_run (keys u) u s) as [s1 Hrun].
  exists s1. destruct (sets_reserved_distDir u) eqn:Hres.
  - rewrite (reserved_in_keys _ Hres) in Hrun. cbn [andb] in Hrun.
    rewrite (bind_Throw _ _ _ _ _ Hrun). reflexivity.
  - rewrite andb_false_r in Hrun. rewrite (bind_Ok _ _ _ _ _ Hrun).
    reflexivity.
Qed.

Lemma lookup_merged_result k u :
  lookup k (spread_into (spread_into [] (default_props h)) (assigned h u)) =
  match lookup k u with
  | Some uv => Some (merged_value h k uv)
  | None => lookup k (default_props h)
  end.
Proof.
  rewrite lookup_spread_into, lookup_assigned, lookup_spread_literal.
  destruct (lookup k u); reflexivity.
Qed.

Lemma assignDefaults_Ok_lookup u s result s' :
  assignDefaults h u s = (Ok result, s') ->
  exists rp,
    result = VObj "Object" Fresh rp
    /\ forall k,
         lookup k rp =
         match lookup k u with
         | Some uv => Some (merged_value h k uv)
         | None => lookup k (default_props h)
         end.
Proof.
  intros H. destruct (assignDefaults_run u s) as [s1 Hrun].
  rewrite Hrun in H. destruct (sets_reserved_distDir u); [discriminate H|].
  injection H as Hres _. eexists. split; [symmetry; exact Hres|].
  intros k. apply lookup_merged_result.
Qed.

End Merger.

(** ** The warning and the trace *)

Lemma warn_lines_app a b :
  warn_lines (a ++ b)%list = (warn_lines a ++ warn_lines b)%list.
Proof.
  induction a as [|e t IH]; simpl; [reflexivity|].
  destruct e; simpl; rewrite IH; reflexivity.
Qed.

Lemma appends_warnings_refl s : appends_warnings s s.
Proof. exists []. simpl. rewrite app_nil_r. reflexivity. Qed.

Lemma appends_warnings_trans a b c :
  appends_warnings a b -> appends_warnings b c -> appends_warnings a c.
Proof.
  intros [l1 H1] [l2 H2]. exists (l1 ++ l2)%list.
  rewrite H2, H1, map_app, app_assoc. reflexivity.
Qed.

Lemma appends_warnings_experimentalWarning :
  respects appends_warnings experimentalWarning.
Proof.
  intros s. unfold experimentalWarning, execOnce.
  destruct (used s).
  - apply appends_warnings_refl.
  - exists experimental_warning_lines. simpl.
    repeat rewrite <- app_assoc. reflexivity.
Qed.

Lemma once_only_refl s : once_only s s.
Proof. left. split; reflexivity. Qed.

Lemma once_only_trans a b c : once_only a b -> once_only b c -> once_only a c.
Proof.
  unfold once_only.
  intros [[U1 W1]|(U1 & U1' & W1)] [[U2 W2]|(U2 & U2' & W2)].
  - left. split; congruence.
  - right. repeat split; congruence.
  - right. repeat split; congruence.
  - congruence.
Qed.

Lemma once_only_experimentalWarning : respects once_only experimentalWarning.
Proof.
  intros s. unfold experimentalWarning, execOnce.
  destruct (used s) eqn:Hu.
  - apply once_only_refl.
  - right. repeat split; [exact Hu|].
    unfold warnings. simpl. repeat rewrite warn_lines_app. simpl.
    repeat rewrite <- app_assoc. reflexivity.
Qed.

Lemma once_only_log e :
  match e with EvWarn _ => False | _ => True end -> respects once_only (log e).
Proof.
  intros He s. left. split; [reflexivity|].
  unfold warnings. simpl. rewrite warn_lines_app.
  destruct e; simpl; try apply app_nil_r. contradiction.
Qed.

Lemma once_only_loadConfig h w phase dir custom s :
  once_only s (snd (loadConfig h w phase dir custom s)).
Proof.
  apply (respects_loadConfig h once_only once_only_refl once_only_trans
           once_only_experimentalWarning once_only_log).
Qed.

Lemma once_only_run_loads h calls : forall s, once_only s (run_loads h calls s).
Proof.
  induction calls as [|c rest IH]; intros s; simpl.
  - apply once_only_refl.
  - eapply once_only_trans; [apply once_only_loadConfig | apply IH].
Qed.

Lemma loadConfig_inline h w phase dir custom :
  truthy custom = true ->
  loadConfig h w phase dir custom =
  assignDefaults h (with_origin "server" custom).
Proof. unfold loadConfig. intros ->. reflexivity. Qed.

Lemma reserved_with_origin origin userConfig :
  sets_reserved_distDir (with_origin origin userConfig) =
  own_distDir_is_public userConfig.
Proof.
  unfold sets_reserved_distDir, own_distDir_is_public, with_origin, lookup_or.
  rewrite lookup_spread_into.
  destruct (lookup "distDir" (spread_of userConfig)); reflexivity.
Qed.

(** *** C9 *)

(** C9: for every string [target], [isTargetLikeServerless target] is true
    if and only if [target] is ['serverless'] or
    ['experimental-serverless-trace']; it is false for ['server']. *)
Theorem isTargetLikeServerless_iff : forall target : string,
  (isTargetLikeServerless target = true <->
   target = "serverless" \/ target = "experimental-serverless-trace")
  /\ isTargetLikeServerless "server" = false.
Proof.
  intros target. split; [|reflexivity].
  unfold isTargetLikeServerless. rewrite orb_true_iff.
  rewrite !String.eqb_eq. tauto.
Qed.

(** *** C8 *)

(** C8: over any sequence of [loadConfig] calls of one process, started
    with the flag unset, the experimental-feature warning is printed at
    most once; and from any state, a sequence of calls either leaves the
    flag and the printed warnings as they were, or finds the flag unset,
    sets it and prints the warning once: the flag is set on the first
    emission and never reset. *)
Theorem experimental_warning_at_most_once : forall h calls,
  (warning_count (run_loads h calls initial_state) <= 1)%nat
  /\ (forall s, once_only s (run_loads h calls s)).
Proof.
  intros h calls. split; [|apply once_only_run_loads].
  unfold warning_count.
  destruct (once_only_run_loads h calls initial_state)
    as [[_ ->]|(_ & _ & ->)]; simpl; lia.
Qed.

(** Two loads of a configuration with an [experimental] block print the
    warning once, during the first. *)
Example two_experimental_loads_warn_once :
  let c := mkInvocation
             (world_with_config
                (record [("experimental", record [("css", VBool true)])])
                (Returns VUndefined))
             "phase-production-build" "/app" VUndefined in
  warning_count (run_loads example_host [c] initial_state) = 1%nat
  /\ warning_count (run_loads example_host [c; c] initial_state) = 1%nat
  /\ warnings (run_loads example_host [c; c] initial_state)
     = experimental_warning_lines.
Proof. vm_compute. repeat split; reflexivity. Qed.

(** *** C1 *)

(** C1, as amended: for every user configuration record [u] handed to
    [assignDefaults] whose [distDir] is not ['public'], the call returns a
    fresh record [rp] such that (1) every key of the default configuration
    is a key of [rp]; (2) for every key of [u] whose value is a plain
    record (truthy, with [constructor === Object]), [rp] holds a fresh
    record under that key: the own enumerable properties of the default
    value (none when the default is missing or falsy) overlaid key by key
    with the user's, so that, when the default is a record with properties
    [dp], user keys win and the keys of [dp] the user does not mention
    survive; (3) for every key of [u] whose value is not a plain record,
    [rp] holds the user's value itself. *)
Theorem assignDefaults_merges : forall h (u : props) s,
  sets_reserved_distDir u = false ->
  exists rp s',
    assignDefaults h u s = (Ok (VObj "Object" Fresh rp), s')
    /\ (forall k, has k (default_props h) = true -> has k rp = true)
    /\ (forall k uv,
          lookup k u = Some uv -> is_plain_object uv = true ->
          exists m,
            lookup k rp = Some (VObj "Object" Fresh m)
            /\ (forall j,
                  lookup j m =
                  match lookup j (spread_of uv) with
                  | Some x => Some x
                  | None =>
                      let d := prop (defaultConfig h) k in
                      lookup j (spread_of
                                  (if truthy d then d else VObj "Object" Fresh []))
                  end)
            /\ (forall cls r dp j,
                  prop (defaultConfig h) k = VObj cls r dp ->
                  lookup j m =
                  match lookup j (spread_of uv) with
                  | Some x => Some x
                  | None => lookup j dp
                  end))
    /\ (forall k uv,
          lookup k u = Some uv -> is_plain_object uv = false ->
          lookup k rp = Some uv).
Proof.
  intros h u s Hres.
  destruct (assignDefaults_run h u s) as [s' Hrun]. rewrite Hres in Hrun.
  eexists. exists s'. split; [exact Hrun|].
  assert (Hgen : forall k uv,
             lookup k u = Some uv -> is_plain_object uv = true ->
             forall j,
               lookup j (spread_into
                           (spread_into []
                              (spread_of
                                 (if truthy (prop (defaultConfig h) k)
                                  then prop (defaultConfig h) k
                                  else VObj "Object" Fresh [])))
                           (spread_of uv)) =
               match lookup j (spread_of uv) with
               | Some x => Some x
               | None =>
                   lookup j (spread_of
                               (if truthy (prop (defaultConfig h) k)
                                then prop (defaultConfig h) k
                                else VObj "Object" Fresh []))
               end).
  { intros k uv _ _ j. rewrite lookup_spread_into, lookup_spread_literal.
    reflexivity. }
  split; [|split].
  - intros k Hk. unfold has in *. rewrite lookup_merged_result.
    destruct (lookup k u); [reflexivity | exact Hk].
  - intros k uv Hk Hplain. eexists. split; [|split].
    + rewrite lookup_merged_result, Hk. unfold merged_value.
      rewrite Hplain. reflexivity.
    + intros j. cbv zeta. apply (Hgen k uv Hk Hplain).
    + intros cls r dp j Hd. rewrite (Hgen k uv Hk Hplain), Hd. reflexivity.
  - intros k uv Hk Hplain. rewrite lookup_merged_result, Hk.
    unfold merged_value. rewrite Hplain. reflexivity.
Qed.

(** The loader on [onDemandEntries: { maxInactiveAge: 5 }]: the sibling
    [pagesBufferLength] of the default survives. *)
Lemma assignDefaults_merges_witness :
  let u := [("onDemandEntries", record [("maxInactiveAge", VNum 5)])] in
  sets_reserved_distDir u = false
  /\ exists rp s',
       assignDefaults example_host u initial_state
       = (Ok (VObj "Object" Fresh rp), s')
       /\ (forall k, has k (default_props example_host) = true -> has k rp = true).
Proof.
  split; [reflexivity|].
  destruct (assignDefaults_merges example_host
              [("onDemandEntries", record [("maxInactiveAge", VNum 5)])]
              initial_state eq_refl) as (rp & s' & Hrun & Hkeys & _).
  exists rp, s'. split; [exact Hrun | exact Hkeys].
Defined.

Example onDemandEntries_keeps_pagesBufferLength :
  exists rp s',
    assignDefaults example_host
      [("onDemandEntries", record [("maxInactiveAge", VNum 5)])] initial_state
    = (Ok (VObj "Object" Fresh rp), s')
    /\ lookup "onDemandEntries" rp
       = Some (record [("maxInactiveAge", VNum 5); ("pagesBufferLength", VNum 2)]).
Proof. eexists. eexists. vm_compute. split; reflexivity. Qed.

(** C1 as stated fails where the user gives a plain record under a key
    whose default is an array or a non-empty string: the default is not a
    plain record, yet its indexed entries are spread into the result and
    the user's value does not replace it outright. *)
Lemma assignDefaults_record_over_array_default :
  let user := record [("a", VNum 1)] in
  is_plain_object (prop (defaultConfig example_host) "pageExtensions") = false
  /\ exists rp s',
       assignDefaults example_host [("pageExtensions", user)] initial_state
       = (Ok (VObj "Object" Fresh rp), s')
       /\ lookup "pageExtensions" rp
          = Some (record [("0", VStr "tsx"); ("1", VStr "ts"); ("2", VStr "jsx");
                          ("3", VStr "js"); ("a", VNum 1)])
       /\ lookup "pageExtensions" rp <> Some user.
Proof.
  split; [reflexivity|]. eexists. eexists. vm_compute.
  split; [reflexivity|]. split; [reflexivity | discriminate].
Qed.

(** *** C10 *)

(** C10: for every truthy inline configuration, [loadConfig] is
    [assignDefaults] on [{ configOrigin: 'server', ...customConfig }] and
    nothing else: it appends nothing to the trace but warnings (no file
    lookup, no module load, no call of a configuration function), and it
    either throws the reserved-[distDir] error or returns the merged
    record; so the inline configuration [{ target: 'bogus' }] is merged,
    [target] and all, instead of being rejected. *)
Theorem inline_config_only_merges : forall h w phase dir custom s,
  truthy custom = true ->
  loadConfig h w phase dir custom s
  = assignDefaults h (with_origin "server" custom) s
  /\ appends_warnings s (snd (loadConfig h w phase dir custom s))
  /\ fst (loadConfig h w phase dir custom s)
     = (if own_distDir_is_public custom
        then Throw (Error reserved_distDir_message)
        else Ok (VObj "Object" Fresh
                   (spread_into (spread_into [] (default_props h))
                      (assigned h (with_origin "server" custom)))))
  /\ exists rp s',
       loadConfig h w phase dir (record [("target", VStr "bogus")]) s
       = (Ok (VObj "Object" Fresh rp), s')
       /\ lookup "target" rp = Some (VStr "bogus")
       /\ lookup "configOrigin" rp = Some (VStr "server").
Proof.
  intros h w phase dir custom s Htruthy.
  rewrite (loadConfig_inline h w phase dir custom Htruthy).
  split; [reflexivity|]. split; [|split].
  - apply (respects_assignDefaults h appends_warnings appends_warnings_refl
             appends_warnings_trans appends_warnings_experimentalWarning).
  - destruct (assignDefaults_run h (with_origin "server" custom) s) as [s1 Hrun].
    rewrite reserved_with_origin in Hrun. rewrite Hrun. reflexivity.
  - rewrite (loadConfig_inline h w phase dir (record [("target", VStr "bogus")]) eq_refl).
    destruct (assignDefaults_run h
                (with_origin "server" (record [("target", VStr "bogus")])) s)
      as [s1 Hrun].
    rewrite reserved_with_origin in Hrun. eexists. exists s1.
    split; [exact Hrun|]. rewrite !lookup_merged_result. split; reflexivity.
Qed.

Lemma inline_config_only_merges_witness :
  let custom := record [("target", VStr "bogus")] in
  let w := world_with_file "next.config.js" in
  truthy custom = true
  /\ loadConfig example_host w "phase-production-server" "/app" custom initial_state
     = assignDefaults example_host (with_origin "server" custom) initial_state
  /\ snd (loadConfig example_host w "phase-production-server" "/app" custom
            initial_state) = initial_state.
Proof.
  split; [reflexivity|].
  destruct (inline_config_only_merges example_host
              (world_with_file "next.config.js") "phase-production-server"
              "/app" (record [("target", VStr "bogus")]) initial_state eq_refl)
    as (Heq & _).
  split; [exact Heq | reflexivity].
Defined.

(** ** The path through a configuration file *)

Lemma found_Some p : p <> "" -> found (Some p) = true.
Proof. destruct p; [congruence | reflexivity]. Qed.

Lemma loadConfig_file h w phase dir custom p s :
  truthy custom = false ->
  findUp_sync w supported_names dir = Some p -> p <> "" ->
  loadConfig h w phase dir custom s =
  (userConfig <- load_userConfig h w phase p ;;
   userConfig <- validate w userConfig ;;
   assignDefaults h (with_origin CONFIG_FILE userConfig))
    (looked_up supported_names dir s).
Proof.
  intros Hc Hp Hne. unfold loadConfig. rewrite Hc.
  unfold bind at 1. unfold findUp, bind, log, ret.
  change [configBaseName ++ ".js"; configBaseName ++ ".ts"] with supported_names.
  rewrite Hp, (found_Some p Hne). reflexivity.
Qed.

Lemma loadConfig_no_file h w phase dir custom s :
  truthy custom = false ->
  found (findUp_sync w supported_names dir) = false ->
  loadConfig h w phase dir custom s =
  (if found (findUp_sync w unsupported_names dir)
   then Throw (Error (unsupported_message
                        (match findUp_sync w unsupported_names dir with
                         | Some p => p
                         | None => ""
                         end)))
   else Ok (defaultConfig h),
   looked_up unsupported_names dir (looked_up supported_names dir s)).
Proof.
  intros Hc Hp. unfold loadConfig. rewrite Hc.
  unfold bind at 1. unfold findUp, bind, log, ret.
  change [configBaseName ++ ".js"; configBaseName ++ ".ts"] with supported_names.
  change [configBaseName ++ ".jsx"; configBaseName ++ ".tsx"; configBaseName ++ ".json"]
    with unsupported_names.
  rewrite Hp.
  destruct (found (findUp_sync w unsupported_names dir)); reflexivity.
Qed.

Lemma ret_inv {A} (a b : A) s s' : ret a s = (Ok b, s') -> a = b /\ s = s'.
Proof. unfold ret. intros H. inversion H. split; reflexivity. Qed.

Lemma get_Ok_inv v k s x s' :
  get v k s = (Ok x, s') -> nullish v = false /\ x = prop v k /\ s' = s.
Proof.
  unfold get. destruct (nullish v); unfold throw, ret; intros H; inversion H.
  repeat split.
Qed.

Lemma normalizeConfig_defined h w phase config s c s' :
  nullish config = false ->
  normalizeConfig h w phase config s = (Ok c, s') -> nullish c = false.
Proof.
  unfold normalizeConfig. intros Hn H. destruct (is_function config).
  - apply bind_Ok_inv in H as (c' & s1 & _ & H).
    apply bind_Ok_inv in H as (t & s2 & Hget & H).
    apply get_Ok_inv in Hget as (Hc' & _ & _).
    destruct (is_function t); [discriminate H|].
    apply ret_inv in H as [<- _]. exact Hc'.
  - apply ret_inv in H as [<- _]. exact Hn.
Qed.

(** A configuration that was loaded is never [null] or [undefined]. *)
Lemma load_userConfig_defined h w phase p s userConfig s' :
  load_userConfig h w phase p s = (Ok userConfig, s') ->
  nullish userConfig = false.
Proof.
  unfold load_userConfig. intros H.
  apply bind_Ok_inv in H as (? & s1 & _ & H).
  apply bind_Ok_inv in H as (m & s2 & _ & H).
  apply bind_Ok_inv in H as (d & s3 & Hget & H).
  apply get_Ok_inv in Hget as (Hm & _ & _).
  eapply normalizeConfig_defined; [|exact H].
  destruct (truthy d) eqn:Hd; [apply truthy_not_nullish, Hd | exact Hm].
Qed.

Lemma check_target_run userConfig s :
  nullish userConfig = false ->
  check_target userConfig s =
  (if truthy (prop userConfig "target")
      && negb (includes targets (prop userConfig "target"))
   then Throw (Error (invalid_target_message (prop userConfig "target")))
   else Ok tt, s).
Proof.
  intros Hn. unfold check_target.
  rewrite (bind_Ok _ _ _ _ _ (get_defined _ _ s Hn)).
  destruct (_ && _); reflexivity.
Qed.

Lemma check_runtime_config_run userConfig s :
  nullish userConfig = false ->
  check_runtime_config userConfig s =
  (if truthy (prop userConfig "target")
      && negb (strict_eq (prop userConfig "target") (VStr "server"))
      && (non_empty (prop userConfig "publicRuntimeConfig")
          || non_empty (prop userConfig "serverRuntimeConfig"))
   then Throw (Error runtime_config_message)
   else Ok tt, s).
Proof.
  intros Hn. unfold check_runtime_config.
  rewrite (bind_Ok _ _ _ _ _ (get_defined _ _ s Hn)).
  rewrite (bind_Ok _ _ _ _ _ (get_defined _ _ s Hn)).
  rewrite (bind_Ok _ _ _ _ _ (get_defined _ _ s Hn)).
  destruct (_ && _ && _); reflexivity.
Qed.

Lemma check_reactMode_run userConfig s :
  nullish userConfig = false ->
  check_reactMode userConfig s =
  (let experimental := prop userConfig "experimental" in
   if truthy experimental
      && truthy (prop experimental "reactMode")
      && negb (includes reactModes (prop experimental "reactMode"))
   then Throw (Error (invalid_reactMode_message (prop experimental "reactMode")))
   else Ok tt, s).
Proof.
  intros Hn. unfold check_reactMode.
  rewrite (bind_Ok _ _ _ _ _ (get_defined _ _ s Hn)). cbv zeta.
  destruct (truthy (prop userConfig "experimental")) eqn:He; [|reflexivity].
  rewrite (bind_Ok _ _ _ _ _ (get_defined _ _ s (truthy_not_nullish _ He))).
  cbn [andb]. destruct (_ && _); reflexivity.
Qed.

(** The rewriting of [amp.canonicalBase] touches [amp] and nothing else. *)
Lemma normalize_canonicalBase_shape w u s u' s' :
  normalize_canonicalBase w u s = (Ok u', s') ->
  u' = u \/ exists x y, u' = put (put u "amp" x) "amp" y.
Proof.
  unfold normalize_canonicalBase. intros H.
  apply bind_Ok_inv in H as (amp & s1 & _ & H).
  destruct (truthy amp); [|apply ret_inv in H as [<- _]; now left].
  apply bind_Ok_inv in H as (cb & s2 & _ & H).
  destruct (truthy cb); [|apply ret_inv in H as [<- _]; now left].
  apply bind_Ok_inv in H as (ends & s3 & _ & H).
  apply bind_Ok_inv in H as (stripped & s4 & _ & H).
  apply ret_inv in H as [<- _]. right. eauto.
Qed.

Lemma nullish_put o k x : nullish (put o k x) = nullish o.
Proof. destruct o; reflexivity. Qed.

Lemma lookup_spread_of_put o k x j :
  k <> j -> lookup j (spread_of (put o k x)) = lookup j (spread_of o).
Proof.
  intros Hkj. destruct o; try reflexivity. simpl.
  rewrite lookup_set. apply String.eqb_neq in Hkj. rewrite Hkj. reflexivity.
Qed.

Lemma normalize_canonicalBase_keeps w u s u' s' :
  normalize_canonicalBase w u s = (Ok u', s') ->
  nullish u' = nullish u
  /\ forall j, "amp" <> j ->
       prop u' j = prop u j
       /\ lookup j (spread_of u') = lookup j (spread_of u).
Proof.
  intros H. apply normalize_canonicalBase_shape in H as [->|(x & y & ->)].
  - split; [reflexivity | intros; split; reflexivity].
  - split; [now rewrite !nullish_put|]. intros j Hj.
    rewrite !prop_put_other, !lookup_spread_of_put by exact Hj.
    split; reflexivity.
Qed.

(** What [validate] returns is what the rewriting of [amp.canonicalBase]
    returned. *)
Lemma validate_Ok_inv w u s checked s' :
  validate w u s = (Ok checked, s') ->
  exists s1 s2,
    check_target u s = (Ok tt, s1)
    /\ normalize_canonicalBase w u s1 = (Ok checked, s2)
    /\ check_runtime_config checked s2 = (Ok tt, s')
    /\ check_reactMode checked s' = (Ok tt, s').
Proof.
  unfold validate. intros H.
  apply bind_Ok_inv in H as ([] & s1 & H1 & H).
  apply bind_Ok_inv in H as (u1 & s2 & H2 & H).
  apply bind_Ok_inv in H as ([] & s3 & H3 & H).
  apply bind_Ok_inv in H as ([] & s4 & H4 & H).
  apply ret_inv in H as [<- <-].
  assert (Hn : nullish u1 = false).
  { unfold check_runtime_config in H3.
    apply bind_Ok_inv in H3 as (? & ? & Hg & _).
    apply get_Ok_inv in Hg as (Hn & _). exact Hn. }
  assert (s4 = s3) as ->.
  { rewrite (check_reactMode_run _ _ Hn) in H4. inversion H4. reflexivity. }
  exists s1, s2. repeat split; assumption.
Qed.

Lemma validate_keeps_distDir w u s checked s' :
  validate w u s = (Ok checked, s') ->
  own_distDir_is_public checked = own_distDir_is_public u.
Proof.
  intros H. apply validate_Ok_inv in H as (s1 & s2 & _ & H & _).
  apply normalize_canonicalBase_keeps in H as [_ H].
  unfold own_distDir_is_public, lookup_or.
  destruct (H "distDir") as [_ ->]; [discriminate | reflexivity].
Qed.

(** *** C7 *)

(** C7: a call with no inline configuration, in a tree where the lookup
    for [next.config.js] / [next.config.ts] finds nothing, returns
    [defaultConfig] itself when the lookup for [.jsx] / [.tsx] / [.json]
    finds nothing either, and otherwise throws the error that names the
    file found and the two supported names. *)
Theorem no_config_file : forall h w phase dir custom s,
  truthy custom = false ->
  found (findUp_sync w supported_names dir) = false ->
  let s' := looked_up unsupported_names dir (looked_up supported_names dir s) in
  (found (findUp_sync w unsupported_names dir) = false ->
   loadConfig h w phase dir custom s = (Ok (defaultConfig h), s'))
  /\ (forall nonJsPath,
        findUp_sync w unsupported_names dir = Some nonJsPath ->
        nonJsPath <> "" ->
        loadConfig h w phase dir custom s =
        (Throw (Error ("Configuring Next.js via '" ++ basename nonJsPath ""
                       ++ "' is not supported. Please replace the file with 'next.config.js' or 'next.config.ts'.")),
         s')).
Proof.
  intros h w phase dir custom s Hc Hp s'.
  rewrite (loadConfig_no_file h w phase dir custom s Hc Hp). split.
  - intros ->. reflexivity.
  - intros p Hq Hne. rewrite Hq, (found_Some p Hne). reflexivity.
Qed.

Lemma no_config_file_witness :
  (loadConfig example_host (world_with_file "README.md")
     "phase-production-build" "/app" VUndefined initial_state
   = (Ok (defaultConfig example_host),
      looked_up unsupported_names "/app"
        (looked_up supported_names "/app" initial_state)))
  /\ (loadConfig example_host (world_with_file "next.config.json")
        "phase-production-build" "/app" VNull initial_state
      = (Throw (Error "Configuring Next.js via 'next.config.json' is not supported. Please replace the file with 'next.config.js' or 'next.config.ts'."),
         looked_up unsupported_names "/app"
           (looked_up supported_names "/app" initial_state))).
Proof.
  split.
  - apply (no_config_file example_host (world_with_file "README.md")
             "phase-production-build" "/app" VUndefined initial_state
             eq_refl eq_refl).
    reflexivity.
  - apply (proj2 (no_config_file example_host (world_with_file "next.config.json")
             "phase-production-build" "/app" VNull initial_state
             eq_refl eq_refl) "/app/next.config.json" eq_refl).
    discriminate.
Defined.

(** *** C6 *)

Section ThrowsOnly.

Variable P : exn -> Prop.
Hypothesis P_TypeError : forall m, P (TypeError m).
Hypothesis P_Foreign : forall m, P (Foreign m).

Lemma throws_only_ret {A} (a : A) : throws_only P (ret a).
Proof. intros s e s' H. discriminate H. Qed.

Lemma throws_only_throw {A} e : P e -> throws_only P (@throw A e).
Proof. intros He s e' s' H. inversion H. subst. exact He. Qed.

Lemma throws_only_bind {A B} (m : M A) (k : A -> M B) :
  throws_only P m -> (forall a, throws_only P (k a)) -> throws_only P (bind m k).
Proof.
  intros Hm Hk s e s' H. unfold bind in H.
  destruct (m s) as [[a|e1] s1] eqn:Hms.
  - apply (Hk a s1 e s' H).
  - inversion H. subst. apply (Hm s e s' Hms).
Qed.

Lemma throws_only_log ev : throws_only P (log ev).
Proof. intros s e s' H. discriminate H. Qed.

Lemma throws_only_get v k : throws_only P (get v k).
Proof.
  unfold get. destruct (nullish v);
    [apply throws_only_throw, P_TypeError | apply throws_only_ret].
Qed.

Lemma throws_only_call w f args : throws_only P (call w f args).
Proof.
  unfold call. destruct f; try (apply throws_only_throw, P_TypeError).
  apply throws_only_bind; [apply throws_only_log | intros _].
  unfold foreign. destruct (call_fn w f args);
    [apply throws_only_ret | apply throws_only_throw, P_Foreign].
Qed.

Lemma throws_only_invoke w recv name args :
  throws_only P (invoke w recv name args).
Proof.
  assert (Hgen : throws_only P (f <- get recv name ;; call w f args)).
  { apply throws_only_bind; [apply throws_only_get | intros f].
    apply throws_only_call. }
  unfold invoke.
  destruct recv; try exact Hgen.
  destruct args as [|[] [|[] [|]]]; try exact Hgen;
    destruct (name =? _); try exact Hgen; apply throws_only_ret.
Qed.

Hypothesis P_target : forall t, P (Error (invalid_target_message t)).
Hypothesis P_runtime : P (Error runtime_config_message).
Hypothesis P_reactMode : forall m, P (Error (invalid_reactMode_message m)).

Lemma throws_only_validate w u : throws_only P (validate w u).
Proof.
  unfold validate, check_target, normalize_canonicalBase,
    check_runtime_config, check_reactMode.
  repeat first
    [ apply throws_only_bind; [|intros ?]
    | apply throws_only_ret
    | apply throws_only_get
    | apply throws_only_invoke
    | apply throws_only_throw; first [apply P_target | apply P_runtime | apply P_reactMode]
    | match goal with
      | |- throws_only _ (if ?b then _ else _) => destruct b
      end ].
Qed.

End ThrowsOnly.

(** The checks of the file path never throw the reserved-directory error. *)
Lemma validate_not_reserved w u s e s' :
  validate w u s = (Throw e, s') -> e <> Error reserved_distDir_message.
Proof.
  apply (throws_only_validate (fun e => e <> Error reserved_distDir_message));
    intros; discriminate.
Qed.

(** C6, as amended: every user configuration reaches [assignDefaults] as
    [{ configOrigin: origin, ...userConfig }], and there the call throws
    the reserved-directory error, whose message ends with the link to the
    documentation, exactly when the own [distDir] of the user
    configuration is ['public']; for any other [distDir] it returns the
    merged record.  So does [loadConfig] on an inline configuration.  On a
    configuration loaded from a file, [loadConfig] first runs the checks of
    the file path: if one of them fails its error is thrown, which is never
    the reserved-directory error; if they pass, the reserved-directory
    error is thrown exactly when [distDir] is ['public']. *)
Theorem reserved_distDir_rejected : forall h,
  (forall origin userConfig s,
     exists s',
       assignDefaults h (with_origin origin userConfig) s =
       (if own_distDir_is_public userConfig
        then Throw (Error reserved_distDir_message)
        else Ok (VObj "Object" Fresh
                   (spread_into (spread_into [] (default_props h))
                      (assigned h (with_origin origin userConfig)))),
        s'))
  /\ (exists text,
        reserved_distDir_message
        = text ++ "https://err.sh/zeit/next.js/can-not-output-to-public")
  /\ (forall w phase dir custom s,
        truthy custom = true ->
        exists s',
          loadConfig h w phase dir custom s =
          (if own_distDir_is_public custom
           then Throw (Error reserved_distDir_message)
           else Ok (VObj "Object" Fresh
                      (spread_into (spread_into [] (default_props h))
                         (assigned h (with_origin "server" custom)))),
           s'))
  /\ (forall w phase dir custom s p loaded s1,
        truthy custom = false ->
        findUp_sync w supported_names dir = Some p -> p <> "" ->
        load_userConfig h w phase p (looked_up supported_names dir s)
        = (Ok loaded, s1) ->
        (forall e s2,
           validate w loaded s1 = (Throw e, s2) ->
           loadConfig h w phase dir custom s = (Throw e, s2)
           /\ e <> Error reserved_distDir_message)
        /\ (forall checked s2,
              validate w loaded s1 = (Ok checked, s2) ->
              exists s',
                loadConfig h w phase dir custom s =
                (if own_distDir_is_public loaded
                 then Throw (Error reserved_distDir_message)
                 else Ok (VObj "Object" Fresh
                            (spread_into (spread_into [] (default_props h))
                               (assigned h (with_origin CONFIG_FILE checked)))),
                 s'))).
Proof.
  intros h.
  assert (Hmerge : forall origin userConfig s,
             exists s',
               assignDefaults h (with_origin origin userConfig) s =
               (if own_distDir_is_public userConfig
                then Throw (Error reserved_distDir_message)
                else Ok (VObj "Object" Fresh
                           (spread_into (spread_into [] (default_props h))
                              (assigned h (with_origin origin userConfig)))),
                s')).
  { intros origin userConfig s.
    destruct (assignDefaults_run h (with_origin origin userConfig) s) as [s' H].
    exists s'. rewrite reserved_with_origin in H. exact H. }
  split; [exact Hmerge|]. split; [|split].
  - eexists. unfold reserved_distDir_message.
    match goal with
    | |- ?m = _ =>
        change m with
          ("The 'public' directory is reserved in Next.js and can not be set as the 'distDir'. "
           ++ "https://err.sh/zeit/next.js/can-not-output-to-public")
    end.
    reflexivity.
  - intros w phase dir custom s Ht.
    rewrite (loadConfig_inline h w phase dir _ Ht). apply Hmerge.
  - intros w phase dir custom s p loaded s1 Hc Hp Hne Hload.
    rewrite (loadConfig_file h w phase dir custom p s Hc Hp Hne).
    rewrite (bind_Ok _ _ _ _ _ Hload). split.
    + intros e s2 Hval. split; [apply bind_Throw, Hval|].
      apply (validate_not_reserved _ _ _ _ _ Hval).
    + intros checked s2 Hval. rewrite (bind_Ok _ _ _ _ _ Hval).
      rewrite <- (validate_keeps_distDir _ _ _ _ _ Hval). apply Hmerge.
Qed.

(** [distDir: 'public'], inline and in [next.config.js]: both calls throw
    the reserved-directory error. *)
Lemma reserved_distDir_rejected_witness :
  let userConfig := record [("distDir", VStr "public")] in
  let w := world_with_config userConfig (Returns VUndefined) in
  (exists s',
     loadConfig example_host w "phase-export" "/app" userConfig initial_state
     = (Throw (Error reserved_distDir_message), s'))
  /\ (exists s',
        loadConfig example_host w "phase-export" "/app" VUndefined initial_state
        = (Throw (Error reserved_distDir_message), s')).
Proof.
  intros userConfig w.
  destruct (reserved_distDir_rejected example_host)
    as (_ & _ & Hinline & Hfile).
  split.
  - apply (Hinline w "phase-export" "/app" userConfig initial_state eq_refl).
  - apply (proj2 (Hfile w "phase-export" "/app" VUndefined initial_state
                    "/app/next.config.js" userConfig
                    {| used := false;
                       trace := [EvFindUp supported_names "/app";
                                 EvRequire "/app/next.config.js"] |}
                    eq_refl eq_refl ltac:(discriminate) eq_refl)
             userConfig
             {| used := false;
                trace := [EvFindUp supported_names "/app";
                          EvRequire "/app/next.config.js"] |}
             eq_refl).
Defined.

(** C6 as stated fails on a configuration file that sets [distDir] to
    ['public'] and fails an earlier check of the file path: the target
    check runs first and its error is the one thrown, which is not the
    reserved-directory error and carries no link to the documentation. *)
Lemma reserved_distDir_preempted_by_target :
  let userConfig := record [("distDir", VStr "public");
                            ("target", VStr "bogus")] in
  own_distDir_is_public userConfig = true
  /\ loadConfig example_host (world_with_config userConfig (Returns VUndefined))
       "phase-production-build" "/app" VUndefined initial_state
     = (Throw (Error (invalid_target_message (VStr "bogus"))),
        {| used := false;
           trace := [EvFindUp supported_names "/app";
                     EvRequire "/app/next.config.js"] |})
  /\ invalid_target_message (VStr "bogus")
     = "Specified target is invalid. Provided: " ++ dquote ++ "bogus" ++ dquote
       ++ " should be one of server, serverless, experimental-serverless-trace"
  /\ Error (invalid_target_message (VStr "bogus"))
     <> Error reserved_distDir_message.
Proof. repeat split; try reflexivity. discriminate. Qed.

(** Any other [distDir] is accepted. *)
Example distDir_build_accepted :
  exists rp s',
    loadConfig example_host (world_with_file "README.md") "phase-export" "/app"
      (record [("distDir", VStr "build")]) initial_state
    = (Ok (VObj "Object" Fresh rp), s')
    /\ lookup "distDir" rp = Some (VStr "build").
Proof. eexists. eexists. vm_compute. split; reflexivity. Qed.

(** ** Trailing slashes *)

Lemma substring_split s : forall n,
  (n <= String.length s)%nat ->
  substring 0 n s ++ substring n (String.length s - n) s = s.
Proof.
  induction s as [|c t IH]; intros n Hn.
  - destruct n; [reflexivity | simpl in Hn; lia].
  - destruct n as [|m].
    + simpl. f_equal. specialize (IH 0%nat (Nat.le_0_l _)).
      simpl in IH. rewrite Nat.sub_0_r in IH.
      destruct t; [reflexivity | exact IH].
    + simpl in *. f_equal. apply IH. lia.
Qed.

Lemma slice_drop_last s :
  slice s 0 (-1) = substring 0 (String.length s - 1) s.
Proof.
  unfold slice. cbv zeta.
  replace (0 <? 0)%Z with false by reflexivity.
  replace (-1 <? 0)%Z with true by reflexivity.
  f_equal; lia.
Qed.

Lemma strip_trailing_slash_spec s :
  (endsWith s "/" = true -> s = strip_trailing_slash s ++ "/")
  /\ (endsWith s "/" = false -> strip_trailing_slash s = s).
Proof.
  unfold strip_trailing_slash. split; intros H; rewrite H; [|reflexivity].
  unfold endsWith in H. apply andb_true_iff in H as [Hlen Hsub].
  apply Nat.leb_le in Hlen. apply String.eqb_eq in Hsub. simpl in Hlen, Hsub.
  rewrite slice_drop_last.
  rewrite <- (substring_split s (String.length s - 1)) at 1 by lia.
  f_equal. rewrite <- Hsub. f_equal. lia.
Qed.

Lemma normalize_canonicalBase_string w cls r own c i ap base s :
  lookup "amp" own = Some (VObj c i ap) ->
  lookup "canonicalBase" ap = Some (VStr base) ->
  base <> "" ->
  normalize_canonicalBase w (VObj cls r own) s =
  (Ok (put (put (VObj cls r own) "amp" (VObj c i ap)) "amp"
         (put (VObj c i ap) "canonicalBase" (VStr (strip_trailing_slash base)))),
   s).
Proof.
  intros Hamp Hcb Hne.
  assert (Ha : prop (VObj cls r own) "amp" = VObj c i ap)
    by (cbn [prop]; unfold lookup_or; rewrite Hamp; reflexivity).
  assert (Hb : prop (VObj c i ap) "canonicalBase" = VStr base)
    by (cbn [prop]; unfold lookup_or; rewrite Hcb; reflexivity).
  apply String.eqb_neq in Hne.
  unfold normalize_canonicalBase.
  rewrite (bind_Ok _ _ _ _ _ (get_defined (VObj cls r own) "amp" s eq_refl)).
  rewrite Ha. cbn [truthy].
  rewrite (bind_Ok _ _ _ _ _ (get_defined (VObj c i ap) "canonicalBase" s eq_refl)).
  rewrite Hb. cbn [truthy]. rewrite Hne. cbn [negb].
  unfold strip_trailing_slash, invoke at 1.
  replace ("endsWith" =? "endsWith") with true by reflexivity.
  unfold bind at 1. unfold ret at 1. cbn [truthy].
  destruct (endsWith base "/").
  - unfold invoke. replace ("slice" =? "slice") with true by reflexivity.
    unfold bind, ret. cbn [truthy].
    destruct (String.eqb_spec (slice base 0 (-1)) "") as [->|_]; reflexivity.
  - unfold bind, ret. cbn [truthy]. rewrite Hne. reflexivity.
Qed.

(** *** C5 *)

(** C5: for a configuration loaded from a file whose [amp] is an object
    with a non-empty string [canonicalBase], the checks hand to the merger
    that configuration with [amp.canonicalBase] replaced by the same string
    less its trailing slash when it ends with one, unchanged when it does
    not; the configuration [loadConfig] returns carries that value.
    ['https://x.com/'] becomes ['https://x.com']. *)
Theorem canonicalBase_trailing_slash_stripped :
  forall h w phase dir custom s p s1 cls r own c i ap base,
  truthy custom = false ->
  findUp_sync w supported_names dir = Some p -> p <> "" ->
  load_userConfig h w phase p (looked_up supported_names dir s)
  = (Ok (VObj cls r own), s1) ->
  lookup "amp" own = Some (VObj c i ap) ->
  lookup "canonicalBase" ap = Some (VStr base) ->
  base <> "" ->
  let stripped := strip_trailing_slash base in
  (endsWith base "/" = true -> base = stripped ++ "/")
  /\ (endsWith base "/" = false -> stripped = base)
  /\ strip_trailing_slash "https://x.com/" = "https://x.com"
  /\ (forall checked s2,
        validate w (VObj cls r own) s1 = (Ok checked, s2) ->
        prop (prop checked "amp") "canonicalBase" = VStr stripped
        /\ loadConfig h w phase dir custom s
           = assignDefaults h (with_origin CONFIG_FILE checked) s2)
  /\ (forall result s',
        loadConfig h w phase dir custom s = (Ok result, s') ->
        prop (prop result "amp") "canonicalBase" = VStr stripped).
Proof.
  intros h w phase dir custom s p s1 cls r own c i ap base
    Hc Hp Hne Hload Hamp Hcb Hbase stripped.
  destruct (strip_trailing_slash_spec base) as [Hends Hnot].
  split; [exact Hends|]. split; [exact Hnot|]. split; [reflexivity|].
  assert (Hchecked : forall checked s2,
             validate w (VObj cls r own) s1 = (Ok checked, s2) ->
             checked = VObj cls r
                         (set "amp" (VObj c i (set "canonicalBase" (VStr stripped) ap))
                            (set "amp" (VObj c i ap) own))).
  { intros checked s2 Hval.
    apply validate_Ok_inv in Hval as (s1' & s2' & _ & Hnorm & _).
    rewrite (normalize_canonicalBase_string w cls r own c i ap base s1'
               Hamp Hcb Hbase) in Hnorm.
    inversion Hnorm. reflexivity. }
  split.
  - intros checked s2 Hval. split.
    + rewrite (Hchecked _ _ Hval). cbn [prop]. unfold lookup_or.
      rewrite lookup_set, String.eqb_refl. cbn [prop]. unfold lookup_or.
      rewrite lookup_set, String.eqb_refl. reflexivity.
    + rewrite (loadConfig_file h w phase dir custom p s Hc Hp Hne).
      rewrite (bind_Ok _ _ _ _ _ Hload), (bind_Ok _ _ _ _ _ Hval). reflexivity.
  - intros result s' Hrun.
    rewrite (loadConfig_file h w phase dir custom p s Hc Hp Hne) in Hrun.
    rewrite (bind_Ok _ _ _ _ _ Hload) in Hrun.
    apply bind_Ok_inv in Hrun as (checked & s2 & Hval & Hrun).
    apply assignDefaults_Ok_lookup in Hrun as (rp & -> & Hlook).
    cbn [prop]. unfold lookup_or at 1. rewrite Hlook.
    rewrite (Hchecked _ _ Hval). unfold with_origin.
    rewrite lookup_spread_into. cbn [spread_of].
    rewrite lookup_set, String.eqb_refl.
    unfold merged_value, merge_over_default.
    destruct (is_plain_object _); cbn [prop]; unfold lookup_or.
    + rewrite lookup_spread_into. cbn [spread_of].
      rewrite lookup_set, String.eqb_refl. reflexivity.
    + rewrite lookup_set, String.eqb_refl. reflexivity.
Qed.

Lemma canonicalBase_trailing_slash_stripped_witness :
  let userConfig := record [("amp", record [("canonicalBase", VStr "https://x.com/")])] in
  let w := world_with_config userConfig (Returns VUndefined) in
  let s1 := {| used := false;
               trace := [EvFindUp supported_names "/app";
                         EvRequire "/app/next.config.js"] |} in
  exists checked,
    validate w userConfig s1 = (Ok checked, s1)
    /\ prop (prop checked "amp") "canonicalBase" = VStr "https://x.com"
    /\ loadConfig example_host w "phase-production-build" "/app" VUndefined
         initial_state
       = assignDefaults example_host (with_origin CONFIG_FILE checked) s1.
Proof.
  intros userConfig w s1.
  destruct (canonicalBase_trailing_slash_stripped example_host w
              "phase-production-build" "/app" VUndefined initial_state
              "/app/next.config.js" s1
              "Object" Fresh
              [("amp", record [("canonicalBase", VStr "https://x.com/")])]
              "Object" Fresh [("canonicalBase", VStr "https://x.com/")]
              "https://x.com/"
              eq_refl eq_refl ltac:(discriminate) eq_refl eq_refl eq_refl
              ltac:(discriminate))
    as (_ & _ & _ & Hchecked & _).
  eexists. split; [reflexivity|].
  apply (Hchecked _ s1 eq_refl).
Defined.

(** The same load, run: it returns, and the slash is gone; a value with
    no trailing slash stays; of two trailing slashes one is removed. *)
Example canonicalBase_examples :
  (exists rp s',
     loadConfig example_host
       (world_with_config
          (record [("amp", record [("canonicalBase", VStr "https://x.com/")])])
          (Returns VUndefined))
       "phase-production-build" "/app" VUndefined initial_state
     = (Ok (VObj "Object" Fresh rp), s')
     /\ lookup "amp" rp = Some (record [("canonicalBase", VStr "https://x.com")]))
  /\ strip_trailing_slash "https://x.com" = "https://x.com"
  /\ strip_trailing_slash "https://x.com//" = "https://x.com/".
Proof.
  split; [|split; reflexivity].
  eexists. eexists. vm_compute. split; reflexivity.
Qed.

(** *** C2 *)

(** C2, as amended: for every call that loads the user configuration from
    a file, if its [target] is truthy and is not one of ['server'],
    ['serverless'], ['experimental-serverless-trace'], [loadConfig] throws
    the invalid-target error, whose message lists the three; a [target]
    among the three passes the check, and the configuration
    [{ target: 'serverless' }] loads. *)
Theorem invalid_target_rejected : forall h w phase dir custom s p userConfig s1,
  truthy custom = false ->
  findUp_sync w supported_names dir = Some p -> p <> "" ->
  load_userConfig h w phase p (looked_up supported_names dir s)
  = (Ok userConfig, s1) ->
  let target := prop userConfig "target" in
  (truthy target = true -> includes targets target = false ->
   loadConfig h w phase dir custom s
   = (Throw (Error (invalid_target_message target)), s1)
   /\ invalid_target_message target
      = "Specified target is invalid. Provided: " ++ dquote ++ toString target
        ++ dquote
        ++ " should be one of server, serverless, experimental-serverless-trace")
  /\ (includes targets target = true ->
      check_target userConfig s1 = (Ok tt, s1))
  /\ (forall r,
        userConfig = VObj "Object" r [("target", VStr "serverless")] ->
        exists rp s',
          loadConfig h w phase dir custom s = (Ok (VObj "Object" Fresh rp), s')
          /\ lookup "target" rp = Some (VStr "serverless")).
Proof.
  intros h w phase dir custom s p userConfig s1 Hc Hp Hne Hload target.
  pose proof (load_userConfig_defined _ _ _ _ _ _ _ Hload) as Hdef.
  rewrite (loadConfig_file h w phase dir custom p s Hc Hp Hne).
  rewrite (bind_Ok _ _ _ _ _ Hload).
  split; [|split].
  - intros Ht Hinc. split; [|reflexivity].
    apply bind_Throw. unfold validate. apply bind_Throw.
    rewrite (check_target_run _ _ Hdef). fold target. rewrite Ht, Hinc.
    reflexivity.
  - intros Hinc. rewrite (check_target_run _ _ Hdef). fold target.
    rewrite Hinc, andb_false_r. reflexivity.
  - intros r ->.
    assert (Hval : validate w (VObj "Object" r [("target", VStr "serverless")]) s1
                   = (Ok (VObj "Object" r [("target", VStr "serverless")]), s1))
      by reflexivity.
    rewrite (bind_Ok _ _ _ _ _ Hval).
    destruct (assignDefaults_run h
                (with_origin CONFIG_FILE
                   (VObj "Object" r [("target", VStr "serverless")])) s1)
      as [s' Hrun].
    rewrite reserved_with_origin in Hrun. eexists. exists s'.
    split; [exact Hrun|]. rewrite lookup_merged_result. reflexivity.
Qed.

Lemma invalid_target_rejected_witness :
  let w := world_with_config (record [("target", VStr "bogus")]) (Returns VUndefined) in
  let s1 := {| used := false;
               trace := [EvFindUp supported_names "/app";
                         EvRequire "/app/next.config.js"] |} in
  loadConfig example_host w "phase-production-build" "/app" VUndefined initial_state
  = (Throw (Error (invalid_target_message (VStr "bogus"))), s1).
Proof.
  intros w s1.
  apply (invalid_target_rejected example_host w "phase-production-build" "/app"
           VUndefined initial_state "/app/next.config.js"
           (record [("target", VStr "bogus")]) s1
           eq_refl eq_refl ltac:(discriminate) eq_refl);
    reflexivity.
Defined.

(** C2 as stated fails on a falsy [target], which the check lets through,
    and on every inline configuration, which is not checked at all: both
    calls return a configuration whose [target] is not one of the three. *)
Lemma invalid_target_accepted :
  (includes targets (VStr "") = false
   /\ exists rp s',
        loadConfig example_host
          (world_with_config (record [("target", VStr "")]) (Returns VUndefined))
          "phase-production-build" "/app" VUndefined initial_state
        = (Ok (VObj "Object" Fresh rp), s')
        /\ lookup "target" rp = Some (VStr ""))
  /\ (includes targets (VStr "bogus") = false
      /\ exists rp s',
           loadConfig example_host (world_with_file "README.md")
             "phase-production-build" "/app"
             (record [("target", VStr "bogus")]) initial_state
           = (Ok (VObj "Object" Fresh rp), s')
           /\ lookup "target" rp = Some (VStr "bogus")).
Proof.
  split; (split; [reflexivity|]); eexists; eexists; vm_compute;
    split; reflexivity.
Qed.

(** *** C4 *)

(** C4, as amended: [normalizeConfig] calls a callable configuration once,
    with the phase and a record whose [defaultConfig] is the default
    configuration.  What the function raises is passed on; when it returns
    [null] or [undefined], reading [then] fails with a [TypeError]; when
    what it returns has a function under [then], the promise error is
    thrown; any other returned value is the result.  A configuration that
    is not callable is returned as it is, and nothing is called. *)
Theorem normalizeConfig_calls_once : forall h w phase config s,
  normalizeConfig h w phase config s =
  match config with
  | VFun f =>
      (match call_fn w f [VStr phase; helpers h] with
       | Raises what => Throw (Foreign what)
       | Returns v =>
           if nullish v
           then Throw (TypeError ("Cannot read property 'then' of " ++ toString v))
           else if is_function (prop v "then")
                then Throw (Error promise_message)
                else Ok v
       end,
       {| used := used s;
          trace := (trace s ++ [EvCall f [VStr phase; helpers h]])%list |})
  | _ => (Ok config, s)
  end
  /\ prop (helpers h) "defaultConfig" = defaultConfig h.
Proof.
  intros h w phase config s. split; [|reflexivity].
  destruct config; try reflexivity.
  unfold normalizeConfig, call, bind, log, foreign, get. cbn [is_function].
  destruct (call_fn w f [VStr phase; helpers h]) as [v|what]; [|reflexivity].
  unfold ret at 1. destruct (nullish v); [reflexivity|].
  unfold ret at 1. destruct (is_function (prop v "then")); reflexivity.
Qed.

(** C4 as stated fails on a configuration function that returns nothing:
    the value is not used, reading [then] of it throws a [TypeError]. *)
Lemma normalizeConfig_undefined_result :
  fst (normalizeConfig example_host
         (world_with_config (VFun "config") (Returns VUndefined))
         "phase-production-build" (VFun "config") initial_state)
  = Throw (TypeError "Cannot read property 'then' of undefined").
Proof. reflexivity. Qed.

Example normalizeConfig_examples :
  fst (normalizeConfig example_host
         (world_with_config (VFun "config")
            (Returns (record [("distDir", VStr "build")])))
         "phase-production-build" (VFun "config") initial_state)
  = Ok (record [("distDir", VStr "build")])
  /\ fst (normalizeConfig example_host
            (world_with_config (VFun "config")
               (Returns (VObj "Promise" Fresh [])))
            "phase-production-build" (VFun "config") initial_state)
     = Throw (Error promise_message)
  /\ fst (normalizeConfig example_host
            (world_with_config (VFun "config")
               (Returns (record [("then", VFun "then")])))
            "phase-production-build" (VFun "config") initial_state)
     = Throw (Error promise_message).
Proof. repeat split; reflexivity. Qed.

(** ** The checks of the file path, in one equation *)

Lemma validate_run w u s :
  nullish u = false ->
  validate w u s =
  if truthy (prop u "target") && negb (includes targets (prop u "target"))
  then (Throw (Error (invalid_target_message (prop u "target"))), s)
  else
    match normalize_canonicalBase w u s with
    | (Throw e, s2) => (Throw e, s2)
    | (Ok u', s2) =>
        if truthy (prop u "target")
           && negb (strict_eq (prop u "target") (VStr "server"))
           && (non_empty (prop u "publicRuntimeConfig")
               || non_empty (prop u "serverRuntimeConfig"))
        then (Throw (Error runtime_config_message), s2)
        else if truthy (prop u "experimental")
                && truthy (prop (prop u "experimental") "reactMode")
                && negb (includes reactModes
                           (prop (prop u "experimental") "reactMode"))
             then (Throw (Error (invalid_reactMode_message
                                   (prop (prop u "experimental") "reactMode"))),
                   s2)
             else (Ok u', s2)
    end.
Proof.
  intros Hdef. unfold validate.
  pose proof (check_target_run u s Hdef) as Hct.
  destruct (truthy (prop u "target") && negb (includes targets (prop u "target"))).
  - apply bind_Throw, Hct.
  - rewrite (bind_Ok _ _ _ _ _ Hct).
    destruct (normalize_canonicalBase w u s) as [[u'|e] s2] eqn:Hn.
    + rewrite (bind_Ok _ _ _ _ _ Hn).
      destruct (normalize_canonicalBase_keeps _ _ _ _ _ Hn) as [Hnull Hkeep].
      rewrite Hdef in Hnull.
      pose proof (check_runtime_config_run u' s2 Hnull) as Hrc.
      pose proof (check_reactMode_run u' s2 Hnull) as Hrm. cbv zeta in Hrm.
      destruct (Hkeep "target") as [E1 _]; [discriminate|].
      destruct (Hkeep "publicRuntimeConfig") as [E2 _]; [discriminate|].
      destruct (Hkeep "serverRuntimeConfig") as [E3 _]; [discriminate|].
      destruct (Hkeep "experimental") as [E4 _]; [discriminate|].
      rewrite E1, E2, E3 in Hrc. rewrite E4 in Hrm.
      destruct (truthy (prop u "target")
                && negb (strict_eq (prop u "target") (VStr "server"))
                && (non_empty (prop u "publicRuntimeConfig")
                    || non_empty (prop u "serverRuntimeConfig"))).
      * apply bind_Throw, Hrc.
      * rewrite (bind_Ok _ _ _ _ _ Hrc).
        destruct (truthy (prop u "experimental")
                  && truthy (prop (prop u "experimental") "reactMode")
                  && negb (includes reactModes
                             (prop (prop u "experimental") "reactMode"))).
        -- apply bind_Throw, Hrm.
        -- rewrite (bind_Ok _ _ _ _ _ Hrm). reflexivity.
    + apply bind_Throw, Hn.
Qed.

(** With no truthy [amp.canonicalBase] the rewriting does nothing. *)
Lemma normalize_canonicalBase_skips w u s :
  nullish u = false ->
  truthy (prop u "amp") = false
  \/ truthy (prop (prop u "amp") "canonicalBase") = false ->
  normalize_canonicalBase w u s = (Ok u, s).
Proof.
  intros Hdef Hskip. unfold normalize_canonicalBase.
  rewrite (bind_Ok _ _ _ _ _ (get_defined u "amp" s Hdef)).
  destruct (truthy (prop u "amp")) eqn:Hamp; [|reflexivity].
  rewrite (bind_Ok _ _ _ _ _
             (get_defined _ "canonicalBase" s (truthy_not_nullish _ Hamp))).
  destruct Hskip as [Hskip|Hskip]; [discriminate Hskip|].
  rewrite Hskip. reflexivity.
Qed.

(** *** C3 *)

Lemma non_empty_record_non_empty v :
  non_empty_record v = true -> non_empty v = true.
Proof.
  destruct v as [| | | | | | |cls r [|[k x] t]]; try discriminate.
  reflexivity.
Qed.

Lemma strict_eq_string v s : strict_eq v (VStr s) = true <-> v = VStr s.
Proof.
  destruct v; simpl; try (split; [discriminate | discriminate]).
  rewrite String.eqb_eq. split; congruence.
Qed.

(** C3, as amended: for every user configuration loaded from a file whose
    [target] is truthy and is not ['server'], [loadConfig] fails whenever
    [publicRuntimeConfig] or [serverRuntimeConfig] is a non-empty record:
    with the invalid-target error when the target is not a known one;
    otherwise with what the rewriting of [amp.canonicalBase], which runs
    next, throws, if it throws; otherwise with the runtime-config error,
    which is the error, with nothing else done, when there is no truthy
    [amp.canonicalBase] to rewrite.  With [target] equal to ['server'] or
    falsy the runtime-config check passes, and a configuration made of the
    two runtime-config records, with or without [target: 'server'],
    loads. *)
Theorem runtime_config_needs_server_target :
  forall h w phase dir custom s p userConfig s1,
  truthy custom = false ->
  findUp_sync w supported_names dir = Some p -> p <> "" ->
  load_userConfig h w phase p (looked_up supported_names dir s)
  = (Ok userConfig, s1) ->
  let target := prop userConfig "target" in
  let publicRuntimeConfig := prop userConfig "publicRuntimeConfig" in
  let serverRuntimeConfig := prop userConfig "serverRuntimeConfig" in
  (truthy target = true -> target <> VStr "server" ->
   non_empty_record publicRuntimeConfig = true
   \/ non_empty_record serverRuntimeConfig = true ->
   loadConfig h w phase dir custom s =
   (if includes targets target
    then match normalize_canonicalBase w userConfig s1 with
         | (Throw e, s2) => (Throw e, s2)
         | (Ok _, s2) => (Throw (Error runtime_config_message), s2)
         end
    else (Throw (Error (invalid_target_message target)), s1))
   /\ (includes targets target = true ->
       truthy (prop userConfig "amp") = false
       \/ truthy (prop (prop userConfig "amp") "canonicalBase") = false ->
       loadConfig h w phase dir custom s
       = (Throw (Error runtime_config_message), s1)))
  /\ (target = VStr "server" \/ truthy target = false ->
      check_runtime_config userConfig s1 = (Ok tt, s1))
  /\ (forall r tgt pub srv,
        userConfig = VObj "Object" r
                       (tgt ++ [("publicRuntimeConfig", pub);
                                ("serverRuntimeConfig", srv)])%list ->
        tgt = [] \/ tgt = [("target", VStr "server")] ->
        exists rp s',
          loadConfig h w phase dir custom s = (Ok (VObj "Object" Fresh rp), s')
          /\ lookup "publicRuntimeConfig" rp
             = Some (merged_value h "publicRuntimeConfig" pub)
          /\ lookup "serverRuntimeConfig" rp
             = Some (merged_value h "serverRuntimeConfig" srv)).
Proof.
  intros h w phase dir custom s p userConfig s1 Hc Hp Hne Hload
    target publicRuntimeConfig serverRuntimeConfig.
  pose proof (load_userConfig_defined _ _ _ _ _ _ _ Hload) as Hdef.
  rewrite (loadConfig_file h w phase dir custom p s Hc Hp Hne).
  rewrite (bind_Ok _ _ _ _ _ Hload).
  split; [|split].
  - intros Ht Hserver Hrt.
    assert (Hnot : strict_eq target (VStr "server") = false).
    { destruct (strict_eq target (VStr "server")) eqn:E; [|reflexivity].
      apply strict_eq_string in E. contradiction. }
    assert (Hne' : non_empty publicRuntimeConfig
                   || non_empty serverRuntimeConfig = true).
    { apply orb_true_iff.
      destruct Hrt as [H|H]; [left | right]; apply non_empty_record_non_empty, H. }
    assert (Hval : validate w userConfig s1 =
                   (if includes targets target
                    then match normalize_canonicalBase w userConfig s1 with
                         | (Throw e, s2) => (Throw e, s2)
                         | (Ok _, s2) => (Throw (Error runtime_config_message), s2)
                         end
                    else (Throw (Error (invalid_target_message target)), s1))).
    { rewrite (validate_run w userConfig s1 Hdef).
      fold target publicRuntimeConfig serverRuntimeConfig.
      rewrite Ht, Hnot, Hne'. cbn [andb negb].
      destruct (includes targets target); reflexivity. }
    assert (Hthrows : exists e s2, validate w userConfig s1 = (Throw e, s2)).
    { rewrite Hval. destruct (includes targets target); [|eauto].
      destruct (normalize_canonicalBase w userConfig s1) as [[u'|e] s2]; eauto. }
    destruct Hthrows as (e & s2 & Hthrow).
    rewrite (bind_Throw _ _ _ _ _ Hthrow), <- Hthrow. split; [exact Hval|].
    intros Hinc Hskip. rewrite Hval, Hinc.
    rewrite (normalize_canonicalBase_skips w userConfig s1 Hdef Hskip).
    reflexivity.
  - intros Hserver. rewrite (check_runtime_config_run _ _ Hdef). fold target.
    destruct Hserver as [->| ->]; reflexivity.
  - intros r tgt pub srv Hu Htgt.
    assert (Hval : validate w userConfig s1 = (Ok userConfig, s1)).
    { rewrite Hu. destruct Htgt as [->| ->]; reflexivity. }
    rewrite (bind_Ok _ _ _ _ _ Hval).
    destruct (assignDefaults_run h (with_origin CONFIG_FILE userConfig) s1)
      as [s' Hrun].
    rewrite reserved_with_origin in Hrun.
    assert (Hpub : lookup "publicRuntimeConfig" (with_origin CONFIG_FILE userConfig)
                   = Some pub
                   /\ lookup "serverRuntimeConfig" (with_origin CONFIG_FILE userConfig)
                      = Some srv
                   /\ own_distDir_is_public userConfig = false).
    { rewrite Hu. destruct Htgt as [->| ->]; repeat split; reflexivity. }
    destruct Hpub as (Hpub & Hsrv & Hdist). rewrite Hdist in Hrun.
    eexists. exists s'. split; [exact Hrun|].
    rewrite !lookup_merged_result, Hpub, Hsrv. split; reflexivity.
Qed.

(** [target: 'serverless'] with [publicRuntimeConfig: { a: 1 }] in
    [next.config.js]: the runtime-config error, and nothing but the lookup
    and the load of the module before it. *)
Lemma runtime_config_needs_server_target_witness :
  let userConfig := record [("target", VStr "serverless");
                            ("publicRuntimeConfig", record [("a", VNum 1)])] in
  let w := world_with_config userConfig (Returns VUndefined) in
  loadConfig example_host w "phase-production-build" "/app" VUndefined
    initial_state
  = (Throw (Error runtime_config_message),
     {| used := false;
        trace := [EvFindUp supported_names "/app";
                  EvRequire "/app/next.config.js"] |}).
Proof.
  intros userConfig w.
  destruct (runtime_config_needs_server_target example_host w
              "phase-production-build" "/app" VUndefined initial_state
              "/app/next.config.js" userConfig
              {| used := false;
                 trace := [EvFindUp supported_names "/app";
                           EvRequire "/app/next.config.js"] |}
              eq_refl eq_refl ltac:(discriminate) eq_refl)
    as (Hfails & _ & _).
  apply (proj2 (Hfails eq_refl ltac:(discriminate) (or_introl eq_refl))
           eq_refl (or_introl eq_refl)).
Defined.

(** The load of the specification: with ['serverless'] it throws the
    runtime-config error, with ['server'] it returns. *)
Example runtime_config_examples :
  fst (loadConfig example_host
         (world_with_config
            (record [("target", VStr "serverless");
                     ("publicRuntimeConfig", record [("a", VNum 1)])])
            (Returns VUndefined))
         "phase-production-build" "/app" VUndefined initial_state)
  = Throw (Error runtime_config_message)
  /\ exists rp s',
       loadConfig example_host
         (world_with_config
            (record [("target", VStr "server");
                     ("publicRuntimeConfig", record [("a", VNum 1)])])
            (Returns VUndefined))
         "phase-production-build" "/app" VUndefined initial_state
       = (Ok (VObj "Object" Fresh rp), s')
       /\ lookup "publicRuntimeConfig" rp = Some (record [("a", VNum 1)]).
Proof.
  split; [reflexivity|]. eexists. eexists. vm_compute. split; reflexivity.
Qed.

(** C3 as stated fails on a falsy [target]: it is present, it is not
    ['server'], the public runtime configuration is not empty, and the
    load returns. *)
Lemma falsy_target_with_runtime_config_accepted :
  let userConfig := record [("target", VStr "");
                            ("publicRuntimeConfig", record [("a", VNum 1)])] in
  lookup "target" (spread_of userConfig) = Some (VStr "")
  /\ VStr "" <> VStr "server"
  /\ non_empty_record (prop userConfig "publicRuntimeConfig") = true
  /\ exists rp s',
       loadConfig example_host (world_with_config userConfig (Returns VUndefined))
         "phase-production-build" "/app" VUndefined initial_state
       = (Ok (VObj "Object" Fresh rp), s')
       /\ lookup "target" rp = Some (VStr "")
       /\ lookup "publicRuntimeConfig" rp = Some (record [("a", VNum 1)]).
Proof.
  split; [reflexivity|]. split; [discriminate|]. split; [reflexivity|].
  eexists. eexists. vm_compute. repeat split; reflexivity.
Qed.

(** * Further properties of config.ts *)

(** ** More on object literals *)

Lemma lookup_spread_of_prop v k x :
  lookup k (spread_of v) = Some x -> prop v k = x.
Proof.
  destruct v; simpl; try discriminate; unfold lookup_or; intros ->; reflexivity.
Qed.

Lemma lookup_with_origin origin v k :
  lookup k (with_origin origin v) =
  match lookup k (spread_of v) with
  | Some x => Some x
  | None => if "configOrigin" =? k then Some (VStr origin) else None
  end.
Proof. unfold with_origin. rewrite lookup_spread_into. reflexivity. Qed.

Lemma lookup_In k l x : lookup k l = Some x -> In (k, x) l.
Proof.
  induction l as [|[k' v'] t IH]; simpl; [discriminate|].
  destruct (lookup k t) as [y|].
  - intros H. right. apply IH. exact H.
  - destruct (String.eqb_spec k' k) as [->|_]; [|discriminate].
    intros H. injection H as ->. now left.
Qed.

Lemma In_indexed k x l : forall i, In (k, x) (indexed i l) -> In x l.
Proof.
  induction l as [|v t IH]; intros i; simpl; [tauto|].
  intros [H|H]; [injection H as _ ->; now left | right; apply (IH _ H)].
Qed.

Lemma In_chars x s : In x (chars s) -> exists c, x = VStr c.
Proof.
  induction s as [|a t IH]; simpl; [tauto|].
  intros [<-|H]; [eexists; reflexivity | apply IH, H].
Qed.

(** A string is never taken for a plain record. *)
Lemma is_plain_object_VStr s : is_plain_object (VStr s) = false.
Proof.
  unfold is_plain_object. cbn [prop]. unfold lookup_or.
  destruct (lookup "constructor" (indexed 0 (chars s))) as [x|] eqn:Hx.
  - apply lookup_In, In_indexed, In_chars in Hx as [c ->].
    apply andb_false_r.
  - apply andb_false_r.
Qed.

Lemma merged_value_VStr h k s : merged_value h k (VStr s) = VStr s.
Proof. unfold merged_value. rewrite is_plain_object_VStr. reflexivity. Qed.

Lemma merged_value_falsy h k v : truthy v = false -> merged_value h k v = v.
Proof. unfold merged_value, is_plain_object. intros ->. reflexivity. Qed.

(** ** The warning, exactly *)

Lemma experimentalWarning_run s :
  experimentalWarning s = (Ok tt, after_warning s).
Proof.
  unfold experimentalWarning, execOnce, after_warning.
  destruct (used s); [reflexivity|].
  unfold bind, console_warn, log. cbn [used trace nth experimental_warning_lines map].
  rewrite <- !app_assoc. reflexivity.
Qed.

Section WarningExactly.

Variable h : host.

Lemma assign_key_full key o s :
  assign_key h key o s =
  (if (key =? "distDir") && sets_reserved_distDir o
   then Throw (Error reserved_distDir_message)
   else Ok (assign_pure h key o),
   if (key =? "experimental") && warns_experimental h o
   then after_warning s else s).
Proof.
  unfold assign_key, warns_experimental, sets_reserved_distDir, assign_pure.
  destruct (String.eqb_spec key "experimental") as [->|Hk].
  - cbn [andb].
    destruct (truthy (lookup_or VUndefined "experimental" o)
              && negb (strict_eq (lookup_or VUndefined "experimental" o)
                                 (prop (defaultConfig h) "experimental"))).
    + rewrite (bind_Ok _ _ _ _ _ (experimentalWarning_run s)).
      replace ("experimental" =? "distDir") with false by reflexivity.
      cbn [andb]. destruct (is_plain_object _); reflexivity.
    + unfold bind, ret.
      replace ("experimental" =? "distDir") with false by reflexivity.
      cbn [andb]. destruct (is_plain_object _); reflexivity.
  - cbn [andb]. unfold bind at 1. unfold ret at 1.
    destruct ((key =? "distDir")
              && strict_eq (lookup_or VUndefined key o) (VStr "public")) eqn:Hd.
    + apply andb_true_iff in Hd as [Hkey Hpub]. apply String.eqb_eq in Hkey.
      subst key. cbn [andb]. rewrite Hpub. reflexivity.
    + destruct (String.eqb_spec key "distDir") as [->|_].
      * cbn [andb] in Hd |- *. rewrite Hd.
        destruct (is_plain_object _); reflexivity.
      * cbn [andb]. destruct (is_plain_object _); reflexivity.
Qed.

Lemma warns_assign_pure k o :
  k <> "experimental" ->
  warns_experimental h (assign_pure h k o) = warns_experimental h o.
Proof.
  intros Hk. unfold warns_experimental, lookup_or.
  rewrite lookup_assign_pure. apply String.eqb_neq in Hk. rewrite Hk.
  reflexivity.
Qed.

Lemma forEach_assign_key_full ks : forall o s,
  NoDup ks ->
  existsb (fun k => k =? "distDir") ks && sets_reserved_distDir o = false ->
  forEach ks (assign_key h) o s =
  (Ok (fold_left (fun o k => assign_pure h k o) ks o),
   if existsb (fun k => k =? "experimental") ks && warns_experimental h o
   then after_warning s else s).
Proof.
  induction ks as [|k t IH]; intros o s Hnd Hres; cbn [forEach existsb fold_left].
  - reflexivity.
  - inversion Hnd as [|? ? Hk Ht]; subst.
    cbn [existsb] in Hres.
    assert (Hhere : (k =? "distDir") && sets_reserved_distDir o = false).
    { destruct (k =? "distDir"); [exact Hres | reflexivity]. }
    assert (Hrest : existsb (fun k => k =? "distDir") t
                    && sets_reserved_distDir (assign_pure h k o) = false).
    { rewrite (reserved_assign_pure h _ _ Hhere).
      destruct (k =? "distDir"); cbn [orb andb] in Hres;
        [rewrite Hres; apply andb_false_r | exact Hres]. }
    pose proof (assign_key_full k o s) as Hstep. rewrite Hhere in Hstep.
    rewrite (bind_Ok _ _ _ _ _ Hstep), (IH _ _ Ht Hrest). f_equal.
    destruct (String.eqb_spec k "experimental") as [->|Hne].
    + assert (existsb (fun k => k =? "experimental") t = false) as ->.
      { destruct (existsb (fun k => k =? "experimental") t) eqn:Hex;
          [|reflexivity].
        exfalso. apply Hk.
        apply existsb_exists in Hex as [x [Hx Hxe]].
        apply String.eqb_eq in Hxe. subst. exact Hx. }
      reflexivity.
    + cbn [andb orb]. rewrite (warns_assign_pure _ _ Hne). reflexivity.
Qed.

Lemma warns_in_keys u :
  warns_experimental h u = true ->
  existsb (fun k => k =? "experimental") (keys u) = true.
Proof.
  unfold warns_experimental, lookup_or. intros H.
  apply existsb_exists. exists "experimental". split; [|reflexivity].
  apply In_keys. unfold has.
  destruct (lookup "experimental" u); [reflexivity | discriminate H].
Qed.

(** [assignDefaults] on a configuration it accepts: result and state. *)
Lemma assignDefaults_full u s :
  sets_reserved_distDir u = false ->
  assignDefaults h u s =
  (Ok (VObj "Object" Fresh
         (spread_into (spread_into [] (default_props h)) (assigned h u))),
   if warns_experimental h u then after_warning s else s).
Proof.
  intros Hres. unfold assignDefaults.
  assert (Hrun := forEach_assign_key_full (keys u) u s (NoDup_keys u)).
  rewrite Hres, andb_false_r in Hrun. specialize (Hrun eq_refl).
  rewrite (bind_Ok _ _ _ _ _ Hrun). unfold ret, assigned. f_equal.
  destruct (warns_experimental h u) eqn:Hw.
  - rewrite (warns_in_keys _ Hw). reflexivity.
  - rewrite andb_false_r. reflexivity.
Qed.

End WarningExactly.

Lemma warns_with_origin h origin v :
  warns_experimental h (with_origin origin v) =
  (truthy (lookup_or VUndefined "experimental" (spread_of v))
   && negb (strict_eq (lookup_or VUndefined "experimental" (spread_of v))
                      (prop (defaultConfig h) "experimental"))).
Proof.
  unfold warns_experimental, lookup_or. rewrite lookup_with_origin.
  destruct (lookup "experimental" (spread_of v)); reflexivity.
Qed.

(** X1: when [assignDefaults] accepts [{ configOrigin: origin,
    ...userConfig }] ([distDir] is not ['public']), the only thing it does
    to the process is this: if the own [experimental] of the user
    configuration is truthy and is not the very object
    [defaultConfig.experimental], and the flag is still unset, it sets the
    flag and prints the three lines of the warning; otherwise it leaves
    the state as it was.  So a configuration whose [experimental] is
    [defaultConfig.experimental] itself, as in a configuration returned by
    an earlier load that did not set it, prints nothing. *)
Theorem experimental_warning_exactly : forall h origin userConfig s,
  own_distDir_is_public userConfig = false ->
  let experimental := lookup_or VUndefined "experimental" (spread_of userConfig) in
  snd (assignDefaults h (with_origin origin userConfig) s) =
  (if truthy experimental
      && negb (strict_eq experimental (prop (defaultConfig h) "experimental"))
      && negb (used s)
   then {| used := true;
           trace := (trace s ++ map EvWarn experimental_warning_lines)%list |}
   else s)
  /\ (forall cls own,
        experimental = VObj cls (DefaultField "experimental") own ->
        snd (assignDefaults h (with_origin origin userConfig) s) = s).
Proof.
  intros h origin userConfig s Hpub experimental.
  rewrite <- reserved_with_origin with (origin := origin) in Hpub.
  rewrite (assignDefaults_full h _ s Hpub), warns_with_origin.
  fold experimental. cbn [snd]. unfold after_warning. split.
  - destruct (truthy experimental && negb _); cbn [andb];
      destruct (used s); reflexivity.
  - intros cls own ->. reflexivity.
Qed.

Lemma experimental_warning_exactly_witness :
  let userConfig := record [("experimental", record [("css", VBool true)])] in
  warnings (snd (assignDefaults example_host (with_origin "server" userConfig)
                   initial_state))
  = experimental_warning_lines
  /\ snd (assignDefaults example_host
            (with_origin "server" (defaultConfig example_host)) initial_state)
     = initial_state.
Proof.
  split.
  - rewrite (proj1 (experimental_warning_exactly example_host "server"
                      (record [("experimental", record [("css", VBool true)])])
                      initial_state eq_refl)).
    reflexivity.
  - apply (proj2 (experimental_warning_exactly example_host "server"
                    (defaultConfig example_host) initial_state eq_refl)
             "Object"
             [ ("ampBindInitData", VBool false);
               ("cpus", VNum (default_cpus example_host));
               ("catchAllRouting", VBool false);
               ("css", VBool false);
               ("documentMiddleware", VBool false);
               ("granularChunks", VBool false);
               ("modern", VBool false);
               ("plugins", VBool false);
               ("profiling", VBool false);
               ("sprFlushToDisk", VBool true);
               ("deferScripts", VBool false);
               ("reactMode", VStr "legacy");
               ("workerThreads", VBool false) ]).
    reflexivity.
Defined.

(** ** The keys of the result *)

(** X2: the record [assignDefaults] returns has the keys of the default
    configuration and the keys of the user configuration, and no others;
    under a default key the user does not mention it holds the default
    value itself (for a sub-record, the object of [defaultConfig], not a
    copy). *)
Theorem merged_keys_exactly : forall h (u : props) s,
  sets_reserved_distDir u = false ->
  exists rp s',
    assignDefaults h u s = (Ok (VObj "Object" Fresh rp), s')
    /\ (forall k, has k rp = has k (default_props h) || has k u)
    /\ (forall k, lookup k u = None -> lookup k rp = lookup k (default_props h)).
Proof.
  intros h u s Hres. rewrite (assignDefaults_full h u s Hres).
  eexists. eexists. split; [reflexivity|]. split.
  - intros k. unfold has. rewrite lookup_merged_result.
    destruct (lookup k u);
      [rewrite orb_true_r | rewrite orb_false_r]; reflexivity.
  - intros k Hk. rewrite lookup_merged_result, Hk. reflexivity.
Qed.

Lemma merged_keys_exactly_witness :
  exists rp s',
    assignDefaults example_host [("basePath", VStr "/docs")] initial_state
    = (Ok (VObj "Object" Fresh rp), s')
    /\ has "basePath" rp = true
    /\ has "nonsense" rp = false
    /\ lookup "experimental" rp = lookup "experimental" (default_props example_host).
Proof.
  destruct (merged_keys_exactly example_host [("basePath", VStr "/docs")]
              initial_state eq_refl) as (rp & s' & Hrun & Hkeys & Hdef).
  exists rp, s'. split; [exact Hrun|]. split; [|split].
  - rewrite Hkeys. reflexivity.
  - rewrite Hkeys. reflexivity.
  - apply Hdef. reflexivity.
Defined.

(** ** The origin tag *)

(** X3: the configuration [assignDefaults] returns for
    [{ configOrigin: origin, ...userConfig }] carries [origin] under
    [configOrigin] (['server'] for an inline configuration, [CONFIG_FILE]
    for one loaded from a file) only when the user configuration has no
    [configOrigin] of its own: a [configOrigin] of the user that is not a
    plain record, a string for one, overrides the tag.  The default
    configuration, returned when there is neither, says ['default']. *)
Theorem configOrigin_tag : forall h origin userConfig s,
  own_distDir_is_public userConfig = false ->
  exists rp s',
    assignDefaults h (with_origin origin userConfig) s
    = (Ok (VObj "Object" Fresh rp), s')
    /\ (lookup "configOrigin" (spread_of userConfig) = None ->
        lookup "configOrigin" rp = Some (VStr origin))
    /\ (forall v,
          lookup "configOrigin" (spread_of userConfig) = Some v ->
          is_plain_object v = false ->
          lookup "configOrigin" rp = Some v)
    /\ (forall c,
          lookup "configOrigin" (spread_of userConfig) = Some (VStr c) ->
          lookup "configOrigin" rp = Some (VStr c))
    /\ prop (defaultConfig h) "configOrigin" = VStr "default".
Proof.
  intros h origin userConfig s Hpub.
  rewrite <- reserved_with_origin with (origin := origin) in Hpub.
  rewrite (assignDefaults_full h _ s Hpub).
  eexists. eexists. split; [reflexivity|].
  rewrite lookup_merged_result, lookup_with_origin.
  split; [|split; [|split]].
  - intros ->. cbn. rewrite merged_value_VStr. reflexivity.
  - intros v -> Hv. unfold merged_value. rewrite Hv. reflexivity.
  - intros c ->. rewrite merged_value_VStr. reflexivity.
  - reflexivity.
Qed.

Lemma configOrigin_tag_witness :
  exists rp s',
    assignDefaults example_host
      (with_origin "server" (record [("configOrigin", VStr "mine")]))
      initial_state
    = (Ok (VObj "Object" Fresh rp), s')
    /\ lookup "configOrigin" rp = Some (VStr "mine").
Proof.
  destruct (configOrigin_tag example_host "server"
              (record [("configOrigin", VStr "mine")]) initial_state eq_refl)
    as (rp & s' & Hrun & _ & _ & Hstr & _).
  exists rp, s'. split; [exact Hrun | apply Hstr; reflexivity].
Defined.

(** ** What every returned configuration satisfies *)

Lemma loadConfig_Ok_inv h w phase dir custom s r s' :
  loadConfig h w phase dir custom s = (Ok r, s') ->
  r = defaultConfig h
  \/ exists origin userConfig s0,
       assignDefaults h (with_origin origin userConfig) s0 = (Ok r, s').
Proof.
  unfold loadConfig. destruct (truthy custom).
  - intros H. right. eauto.
  - intros H. apply bind_Ok_inv in H as (path & s1 & _ & H).
    destruct (found path).
    + apply bind_Ok_inv in H as (u1 & s2 & _ & H).
      apply bind_Ok_inv in H as (u2 & s3 & _ & H). right. eauto.
    + apply bind_Ok_inv in H as (nonJs & s2 & _ & H).
      destruct (found nonJs); [discriminate H|].
      apply ret_inv in H as [<- _]. now left.
Qed.

Lemma assignDefaults_Ok_not_reserved h u s r s' :
  assignDefaults h u s = (Ok r, s') -> sets_reserved_distDir u = false.
Proof.
  intros H. destruct (assignDefaults_run h u s) as [s1 Hrun].
  rewrite Hrun in H. destruct (sets_reserved_distDir u);
    [discriminate H | reflexivity].
Qed.

Lemma merged_value_not_public h k uv :
  strict_eq uv (VStr "public") = false ->
  merged_value h k uv <> VStr "public".
Proof.
  intros Hne. unfold merged_value, merge_over_default.
  destruct (is_plain_object uv); [discriminate|].
  intros ->. discriminate Hne.
Qed.

(** X4: whatever the path ([defaultConfig] itself, an inline
    configuration, a configuration file), a configuration [loadConfig]
    returns is a plain record that has every key of the default
    configuration and whose [distDir] is not ['public']. *)
Theorem loadConfig_result_invariant : forall h w phase dir custom s r s',
  loadConfig h w phase dir custom s = (Ok r, s') ->
  exists mark rp,
    r = VObj "Object" mark rp
    /\ (forall k, has k (default_props h) = true -> has k rp = true)
    /\ prop r "distDir" <> VStr "public".
Proof.
  intros h w phase dir custom s r s' H.
  apply loadConfig_Ok_inv in H as [->|(origin & u & s0 & H)].
  - exists DefaultConfig, (default_props h).
    split; [reflexivity|]. split; [tauto | discriminate].
  - pose proof (assignDefaults_Ok_not_reserved _ _ _ _ _ H) as Hres.
    apply assignDefaults_Ok_lookup in H as (rp & -> & Hlook).
    exists Fresh, rp. split; [reflexivity|]. split.
    + intros k Hk. unfold has in *. rewrite Hlook.
      destruct (lookup k (with_origin origin u)); [reflexivity | exact Hk].
    + cbn [prop]. unfold lookup_or. rewrite Hlook.
      unfold sets_reserved_distDir, lookup_or in Hres.
      destruct (lookup "distDir" (with_origin origin u)) as [uv|].
      * apply merged_value_not_public, Hres.
      * discriminate.
Qed.

Lemma loadConfig_result_invariant_witness :
  exists mark rp,
    defaultConfig example_host = VObj "Object" mark rp
    /\ (forall k, has k (default_props example_host) = true -> has k rp = true)
    /\ prop (defaultConfig example_host) "distDir" <> VStr "public".
Proof.
  apply (loadConfig_result_invariant example_host (world_with_file "README.md")
           "phase-production-build" "/app" VUndefined initial_state
           (defaultConfig example_host)
           (looked_up unsupported_names "/app"
              (looked_up supported_names "/app" initial_state))).
  reflexivity.
Defined.

Lemma includes_string l v :
  includes l v = true -> exists t, v = VStr t /\ In t l.
Proof.
  unfold includes. intros H. apply existsb_exists in H as [t [Ht Heq]].
  apply strict_eq_string in Heq. eauto.
Qed.

(** ** The React mode *)

(** X5: for a configuration loaded from a file whose [experimental] is
    truthy and whose [experimental.reactMode] is truthy and is not one of
    ['legacy'], ['blocking'], ['concurrent'], [loadConfig] never returns,
    and what it throws is decided in the order of the checks: the
    invalid-target error when the target is truthy and unknown; otherwise
    what the rewriting of [amp.canonicalBase] throws, if it throws;
    otherwise the runtime-config error when that check applies; otherwise
    the React-mode error, whose message lists the three modes.  So when
    the target is ['server'] or falsy and there is no truthy
    [amp.canonicalBase], the React-mode error is thrown and nothing else is
    done.  A [reactMode] among the three, or a falsy one, passes the
    check. *)
Theorem invalid_reactMode_rejected :
  forall h w phase dir custom s p userConfig s1,
  truthy custom = false ->
  findUp_sync w supported_names dir = Some p -> p <> "" ->
  load_userConfig h w phase p (looked_up supported_names dir s)
  = (Ok userConfig, s1) ->
  let target := prop userConfig "target" in
  let experimental := prop userConfig "experimental" in
  let reactMode := prop experimental "reactMode" in
  (truthy experimental = true -> truthy reactMode = true ->
   includes reactModes reactMode = false ->
   loadConfig h w phase dir custom s =
   (if truthy target && negb (includes targets target)
    then (Throw (Error (invalid_target_message target)), s1)
    else
      match normalize_canonicalBase w userConfig s1 with
      | (Throw e, s2) => (Throw e, s2)
      | (Ok _, s2) =>
          if truthy target
             && negb (strict_eq target (VStr "server"))
             && (non_empty (prop userConfig "publicRuntimeConfig")
                 || non_empty (prop userConfig "serverRuntimeConfig"))
          then (Throw (Error runtime_config_message), s2)
          else (Throw (Error (invalid_reactMode_message reactMode)), s2)
      end)
   /\ (target = VStr "server" \/ truthy target = false ->
       truthy (prop userConfig "amp") = false
       \/ truthy (prop (prop userConfig "amp") "canonicalBase") = false ->
       loadConfig h w phase dir custom s
       = (Throw (Error (invalid_reactMode_message reactMode)), s1)))
  /\ invalid_reactMode_message reactMode
     = "Specified React Mode is invalid. Provided: " ++ toString reactMode
       ++ " should be one of legacy, blocking, concurrent"
  /\ (truthy experimental = false \/ truthy reactMode = false
      \/ includes reactModes reactMode = true ->
      check_reactMode userConfig s1 = (Ok tt, s1)).
Proof.
  intros h w phase dir custom s p userConfig s1 Hc Hp Hne Hload
    target experimental reactMode.
  pose proof (load_userConfig_defined _ _ _ _ _ _ _ Hload) as Hdef.
  split; [|split; [reflexivity|]].
  - intros He Hr Hinc.
    rewrite (loadConfig_file h w phase dir custom p s Hc Hp Hne).
    rewrite (bind_Ok _ _ _ _ _ Hload).
    pose proof (validate_run w userConfig s1 Hdef) as Hval.
    fold target in Hval. fold experimental in Hval. fold reactMode in Hval.
    rewrite He, Hr, Hinc in Hval. cbn [andb negb] in Hval.
    assert (Hthrows : exists e s2, validate w userConfig s1 = (Throw e, s2)).
    { rewrite Hval. destruct (truthy target && negb (includes targets target));
        [eauto|].
      destruct (normalize_canonicalBase w userConfig s1) as [[u'|e] s2];
        [|eauto].
      destruct (truthy target && negb (strict_eq target (VStr "server"))
                && (non_empty (prop userConfig "publicRuntimeConfig")
                    || non_empty (prop userConfig "serverRuntimeConfig")));
        eauto. }
    destruct Hthrows as (e & s2 & Hthrow).
    rewrite (bind_Throw _ _ _ _ _ Hthrow), <- Hthrow. split; [exact Hval|].
    intros Htarget Hskip. rewrite Hval.
    rewrite (normalize_canonicalBase_skips w userConfig s1 Hdef Hskip).
    destruct Htarget as [->| ->]; reflexivity.
  - intros Hok. rewrite (check_reactMode_run _ _ Hdef). cbv zeta.
    fold experimental. fold reactMode.
    destruct Hok as [->|[->| ->]]; rewrite ?andb_false_r; reflexivity.
Qed.

(** [experimental: { reactMode: 'fast' }] in [next.config.js]: the
    React-mode error, and nothing but the lookup and the load of the module
    before it. *)
Lemma invalid_reactMode_rejected_witness :
  let userConfig := record [("experimental", record [("reactMode", VStr "fast")])] in
  let w := world_with_config userConfig (Returns VUndefined) in
  loadConfig example_host w "phase-production-build" "/app" VUndefined
    initial_state
  = (Throw (Error (invalid_reactMode_message (VStr "fast"))),
     {| used := false;
        trace := [EvFindUp supported_names "/app";
                  EvRequire "/app/next.config.js"] |}).
Proof.
  intros userConfig w.
  destruct (invalid_reactMode_rejected example_host w "phase-production-build"
              "/app" VUndefined initial_state "/app/next.config.js" userConfig
              {| used := false;
                 trace := [EvFindUp supported_names "/app";
                           EvRequire "/app/next.config.js"] |}
              eq_refl eq_refl ltac:(discriminate) eq_refl)
    as (Hfails & _ & _).
  apply (proj2 (Hfails eq_refl eq_refl eq_refl)
           (or_intror eq_refl) (or_introl eq_refl)).
Defined.

Example reactMode_examples :
  fst (loadConfig example_host
         (world_with_config
            (record [("experimental", record [("reactMode", VStr "fast")])])
            (Returns VUndefined))
         "phase-production-build" "/app" VUndefined initial_state)
  = Throw (Error "Specified React Mode is invalid. Provided: fast should be one of legacy, blocking, concurrent")
  /\ exists rp s',
       loadConfig example_host
         (world_with_config
            (record [("experimental", record [("reactMode", VStr "concurrent")])])
            (Returns VUndefined))
         "phase-production-build" "/app" VUndefined initial_state
       = (Ok (VObj "Object" Fresh rp), s')
       /\ prop (lookup_or VUndefined "experimental" rp) "reactMode"
          = VStr "concurrent"
       /\ prop (lookup_or VUndefined "experimental" rp) "css" = VBool false.
Proof.
  split; [reflexivity|]. eexists. eexists. vm_compute. repeat split; reflexivity.
Qed.

(** ** What a configuration loaded from a file satisfies *)

Lemma strict_eq_string_false v s : v <> VStr s -> strict_eq v (VStr s) = false.
Proof.
  intros Hne. destruct (strict_eq v (VStr s)) eqn:E; [|reflexivity].
  apply strict_eq_string in E. contradiction.
Qed.

Lemma non_empty_false_spread v :
  truthy v = true -> non_empty v = false -> spread_of v = [].
Proof.
  unfold non_empty. intros -> H. cbn [andb] in H.
  apply negb_false_iff, Nat.eqb_eq, length_zero_iff_nil, keys_nil_iff in H.
  exact H.
Qed.

Lemma merged_runtime_config_empty h key pv :
  key = "publicRuntimeConfig" \/ key = "serverRuntimeConfig" ->
  non_empty pv = false ->
  non_empty (merged_value h key pv) = false.
Proof.
  intros Hkey Hempty. unfold merged_value.
  destruct (is_plain_object pv) eqn:Hplain; [|exact Hempty].
  assert (Ht : truthy pv = true).
  { unfold is_plain_object in Hplain. apply andb_true_iff in Hplain. tauto. }
  unfold merge_over_default. rewrite (non_empty_false_spread pv Ht Hempty).
  destruct Hkey as [->| ->]; reflexivity.
Qed.

(** X6: a configuration [loadConfig] returns from a configuration file has
    a [target] that is falsy or one of the three known targets; and when
    that [target] is truthy and not ['server'], its [publicRuntimeConfig]
    and its [serverRuntimeConfig] have no keys. *)
Theorem file_config_result_invariant :
  forall h w phase dir custom s p r s',
  truthy custom = false ->
  findUp_sync w supported_names dir = Some p -> p <> "" ->
  loadConfig h w phase dir custom s = (Ok r, s') ->
  let target := prop r "target" in
  (truthy target = false \/ includes targets target = true)
  /\ (truthy target = true -> target <> VStr "server" ->
      non_empty (prop r "publicRuntimeConfig") = false
      /\ non_empty (prop r "serverRuntimeConfig") = false).
Proof.
  intros h w phase dir custom s p r s' Hc Hp Hne H.
  rewrite (loadConfig_file h w phase dir custom p s Hc Hp Hne) in H.
  apply bind_Ok_inv in H as (loaded & s1 & Hload & H).
  apply bind_Ok_inv in H as (checked & s2 & Hval & H).
  pose proof (load_userConfig_defined _ _ _ _ _ _ _ Hload) as Hdef.
  pose proof Hval as Hinv.
  apply validate_Ok_inv in Hinv as (sa & sb & _ & Hnorm & _).
  destruct (normalize_canonicalBase_keeps _ _ _ _ _ Hnorm) as [_ Hkeep].
  destruct (Hkeep "target") as [ET _]; [discriminate|].
  destruct (Hkeep "publicRuntimeConfig") as [EP _]; [discriminate|].
  destruct (Hkeep "serverRuntimeConfig") as [ES _]; [discriminate|].
  rewrite (validate_run w loaded s1 Hdef) in Hval.
  rewrite <- ET, <- EP, <- ES in Hval.
  destruct (truthy (prop checked "target")
            && negb (includes targets (prop checked "target"))) eqn:C1;
    [discriminate Hval|].
  destruct (normalize_canonicalBase w loaded s1) as [[u'|e] s3];
    [|discriminate Hval].
  destruct (truthy (prop checked "target")
            && negb (strict_eq (prop checked "target") (VStr "server"))
            && (non_empty (prop checked "publicRuntimeConfig")
                || non_empty (prop checked "serverRuntimeConfig"))) eqn:C2;
    [discriminate Hval|].
  clear Hval Hnorm Hkeep ET EP ES u' s3.
  apply assignDefaults_Ok_lookup in H as (rp & -> & Hlook).
  assert (Hprop : forall k, "configOrigin" <> k ->
            prop (VObj "Object" Fresh rp) k =
            match lookup k (spread_of checked) with
            | Some uv => merged_value h k uv
            | None => lookup_or (inherited "Object" k) k (default_props h)
            end).
  { intros k Hk. cbn [prop]. unfold lookup_or.
    rewrite Hlook, lookup_with_origin.
    apply String.eqb_neq in Hk. rewrite Hk.
    destruct (lookup k (spread_of checked)); reflexivity. }
  assert (Hrt : forall key,
            key = "publicRuntimeConfig" \/ key = "serverRuntimeConfig" ->
            non_empty (prop checked key) = false ->
            non_empty (prop (VObj "Object" Fresh rp) key) = false).
  { intros key Hkey Hempty.
    rewrite Hprop by (destruct Hkey as [->| ->]; discriminate).
    destruct (lookup key (spread_of checked)) as [pv|] eqn:Hpv.
    - apply lookup_spread_of_prop in Hpv. rewrite Hpv in Hempty.
      apply merged_runtime_config_empty; assumption.
    - destruct Hkey as [->| ->]; reflexivity. }
  cbv zeta. rewrite (Hprop "target") by discriminate.
  destruct (lookup "target" (spread_of checked)) as [uv|] eqn:Huv.
  - apply lookup_spread_of_prop in Huv. rewrite Huv in C1, C2.
    destruct (truthy uv) eqn:Ht.
    + cbn [andb] in C1. apply negb_false_iff in C1.
      destruct (includes_string _ _ C1) as [t [-> _]].
      rewrite merged_value_VStr. split; [right; exact C1|].
      intros _ Hserver. rewrite (strict_eq_string_false _ _ Hserver) in C2.
      cbn [andb negb] in C2. apply orb_false_iff in C2 as [CP CS].
      split; apply Hrt; auto.
    + rewrite (merged_value_falsy h _ _ Ht). split; [left; exact Ht|].
      intros Ht'. congruence.
  - split; [right; reflexivity|]. intros _ Hserver. exfalso. apply Hserver.
    reflexivity.
Qed.

Lemma file_config_result_invariant_witness :
  let w := world_with_config
             (record [("target", VStr "serverless");
                      ("publicRuntimeConfig", record [])])
             (Returns VUndefined) in
  exists r s',
    loadConfig example_host w "phase-production-build" "/app" VUndefined
      initial_state = (Ok r, s')
    /\ (truthy (prop r "target") = false
        \/ includes targets (prop r "target") = true)
    /\ (truthy (prop r "target") = true -> prop r "target" <> VStr "server" ->
        non_empty (prop r "publicRuntimeConfig") = false
        /\ non_empty (prop r "serverRuntimeConfig") = false).
Proof.
  intros w.
  assert (H : exists r s',
             loadConfig example_host w "phase-production-build" "/app"
               VUndefined initial_state = (Ok r, s'))
    by (eexists; eexists; vm_compute; reflexivity).
  destruct H as (r & s' & H). exists r, s'. split; [exact H|].
  apply (file_config_result_invariant example_host w "phase-production-build"
           "/app" VUndefined initial_state "/app/next.config.js" r s'
           eq_refl eq_refl ltac:(discriminate) H).
Defined.

(** ** File path and inline path *)

Lemma lookup_with_origin_other origin v k :
  k <> "configOrigin" ->
  lookup k (with_origin origin v) = lookup k (spread_of v).
Proof.
  intros Hk. rewrite lookup_with_origin.
  destruct (lookup k (spread_of v)); [reflexivity|].
  destruct (String.eqb_spec "configOrigin" k) as [<-|_];
    [contradiction | reflexivity].
Qed.

(** X7: once the checks of the file path have passed, the file path does
    with the checked configuration what the inline path would do with it:
    both throw the reserved-directory error, or both return, and the two
    records returned hold the same value under every key other than
    [configOrigin]. *)
Theorem file_and_inline_agree :
  forall h w phase dir custom s p loaded s1 checked s2 w' phase' dir' s0,
  truthy custom = false ->
  findUp_sync w supported_names dir = Some p -> p <> "" ->
  load_userConfig h w phase p (looked_up supported_names dir s)
  = (Ok loaded, s1) ->
  validate w loaded s1 = (Ok checked, s2) ->
  truthy checked = true ->
  (own_distDir_is_public checked = true ->
   fst (loadConfig h w phase dir custom s)
   = Throw (Error reserved_distDir_message)
   /\ fst (loadConfig h w' phase' dir' checked s0)
      = Throw (Error reserved_distDir_message))
  /\ (own_distDir_is_public checked = false ->
      exists rp1 sf rp2 si,
        loadConfig h w phase dir custom s = (Ok (VObj "Object" Fresh rp1), sf)
        /\ loadConfig h w' phase' dir' checked s0
           = (Ok (VObj "Object" Fresh rp2), si)
        /\ forall k, k <> "configOrigin" -> lookup k rp1 = lookup k rp2).
Proof.
  intros h w phase dir custom s p loaded s1 checked s2 w' phase' dir' s0
    Hc Hp Hne Hload Hval Ht.
  rewrite (loadConfig_file h w phase dir custom p s Hc Hp Hne).
  rewrite (bind_Ok _ _ _ _ _ Hload), (bind_Ok _ _ _ _ _ Hval).
  rewrite (loadConfig_inline h w' phase' dir' checked Ht).
  destruct (assignDefaults_run h (with_origin CONFIG_FILE checked) s2)
    as [sf Hf].
  destruct (assignDefaults_run h (with_origin "server" checked) s0)
    as [si Hi].
  rewrite reserved_with_origin in Hf, Hi. rewrite Hf, Hi. split.
  - intros ->. split; reflexivity.
  - intros ->. eexists. exists sf. eexists. exists si.
    split; [reflexivity|]. split; [reflexivity|].
    intros k Hk. rewrite !lookup_merged_result.
    rewrite !(lookup_with_origin_other _ _ _ Hk). reflexivity.
Qed.

Lemma file_and_inline_agree_witness :
  let userConfig := record [("assetPrefix", VStr "/cdn")] in
  let w := world_with_config userConfig (Returns VUndefined) in
  exists rp1 sf rp2 si,
    loadConfig example_host w "phase-production-build" "/app" VUndefined
      initial_state = (Ok (VObj "Object" Fresh rp1), sf)
    /\ loadConfig example_host w "phase-production-build" "/app" userConfig
         initial_state = (Ok (VObj "Object" Fresh rp2), si)
    /\ forall k, k <> "configOrigin" -> lookup k rp1 = lookup k rp2.
Proof.
  intros userConfig w.
  apply (file_and_inline_agree example_host w "phase-production-build" "/app"
           VUndefined initial_state "/app/next.config.js" userConfig
           {| used := false;
              trace := [EvFindUp supported_names "/app";
                        EvRequire "/app/next.config.js"] |}
           userConfig
           {| used := false;
              trace := [EvFindUp supported_names "/app";
                        EvRequire "/app/next.config.js"] |}
           w "phase-production-build" "/app" initial_state
           eq_refl eq_refl ltac:(discriminate) eq_refl eq_refl eq_refl).
  reflexivity.
Defined.

(** ** More on trailing slashes *)

Lemma length_app s t :
  String.length (s ++ t) = (String.length s + String.length t)%nat.
Proof. induction s as [|c s IH]; simpl; [reflexivity | now rewrite IH]. Qed.

Lemma substring_whole s : substring 0 (String.length s) s = s.
Proof. induction s as [|c s IH]; simpl; [reflexivity | now rewrite IH]. Qed.

Lemma substring_app_head s t : substring 0 (String.length s) (s ++ t) = s.
Proof.
  induction s as [|c s IH]; simpl.
  - destruct t; reflexivity.
  - now rewrite IH.
Qed.

Lemma substring_app_tail s t :
  substring (String.length s) (String.length t) (s ++ t) = t.
Proof.
  induction s as [|c s IH]; simpl; [apply substring_whole | exact IH].
Qed.

Lemma endsWith_app s t : endsWith (s ++ t) t = true.
Proof.
  unfold endsWith. rewrite length_app.
  replace (String.length s + String.length t - String.length t)%nat
    with (String.length s) by lia.
  rewrite substring_app_tail, String.eqb_refl, andb_true_r.
  apply Nat.leb_le. lia.
Qed.

(** X8: the rewriting of [amp.canonicalBase] undoes the appending of one
    slash: for every string [base], [base + '/'] is rewritten to [base];
    and it removes one character when the string ends with a slash and
    none otherwise. *)
Theorem strip_trailing_slash_round_trip : forall base : string,
  strip_trailing_slash (base ++ "/") = base
  /\ String.length (strip_trailing_slash base)
     = (String.length base - (if endsWith base "/" then 1 else 0))%nat.
Proof.
  intros base. split.
  - unfold strip_trailing_slash. rewrite endsWith_app, slice_drop_last.
    rewrite length_app. cbn [String.length].
    replace (String.length base + 1 - 1)%nat with (String.length base) by lia.
    apply substring_app_head.
  - destruct (strip_trailing_slash_spec base) as [Hends Hnot].
    destruct (endsWith base "/").
    + rewrite (Hends eq_refl) at 2. rewrite length_app. simpl. lia.
    + rewrite (Hnot eq_refl). lia.
Qed.

(** ** A canonical base that is not a string *)





(** ** Serverless-like targets *)

(** X10: [isTargetLikeServerless] holds exactly for the known targets other
    than ['server'], and for a configuration whose [target] is a known
    target the runtime-configuration check throws exactly when
    [isTargetLikeServerless] holds of it and one of the two runtime
    configurations has a key. *)
Theorem serverless_like_targets_reject_runtime_config : forall t : string,
  (isTargetLikeServerless t = true <-> In t targets /\ t <> "server")
  /\ (forall userConfig s,
        nullish userConfig = false ->
        prop userConfig "target" = VStr t ->
        In t targets ->
        check_runtime_config userConfig s =
        (if isTargetLikeServerless t
            && (non_empty (prop userConfig "publicRuntimeConfig")
                || non_empty (prop userConfig "serverRuntimeConfig"))
         then Throw (Error runtime_config_message)
         else Ok tt, s)).
Proof.
  intros t. split.
  - unfold isTargetLikeServerless, targets. rewrite orb_true_iff, !String.eqb_eq.
    cbn [In]. split.
    + intros [->| ->]; split; (tauto || discriminate).
    + intros [[<-|[<-|[<-|[]]]] Hne]; tauto.
  - intros userConfig s Hdef Ht Hin.
    rewrite (check_runtime_config_run userConfig s Hdef), Ht.
    destruct Hin as [<-|[<-|[<-|[]]]]; reflexivity.
Qed.

Lemma serverless_like_targets_reject_runtime_config_witness :
  let userConfig := record [("target", VStr "experimental-serverless-trace");
                            ("serverRuntimeConfig", record [("secret", VStr "x")])] in
  check_runtime_config userConfig initial_state
  = (Throw (Error runtime_config_message), initial_state).
Proof.
  intros userConfig.
  apply (proj2 (serverless_like_targets_reject_runtime_config
                  "experimental-serverless-trace")
           userConfig initial_state eq_refl eq_refl).
  right. right. left. reflexivity.
Defined.

(** ** The module a configuration file exports *)

Lemma bind_ret {A B} (a : A) (k : A -> M B) s : bind (ret a) k s = k a s.
Proof. reflexivity. Qed.

Lemma bind_log {B} e (k : unit -> M B) s :
  bind (log e) k s
  = k tt {| used := used s; trace := (trace s ++ [e])%list |}.
Proof. reflexivity. Qed.

Lemma load_userConfig_run h w phase p s m :
  require w p = Returns m -> nullish m = false ->
  load_userConfig h w phase p s =
  normalizeConfig h w phase
    (if truthy (prop m "default") then prop m "default" else m)
    {| used := used s; trace := (trace s ++ [EvRequire p])%list |}.
Proof.
  intros Hr Hnull. unfold load_userConfig. rewrite bind_log, Hr.
  unfold foreign. rewrite bind_ret.
  rewrite (bind_Ok _ _ _ _ _ (get_defined m "default" _ Hnull)). reflexivity.
Qed.

(** X12: [loadConfig] takes the [default] export of the module when it is
    truthy and the module itself otherwise.  So a module whose [default]
    is truthy loads exactly as a module that exports that value directly
    (whatever else the first module exports is ignored), provided that
    value has no truthy [default] of its own. *)
Theorem default_export_preferred :
  forall h w1 w2 phase dir custom s p m,
  findUp_sync w1 = findUp_sync w2 ->
  call_fn w1 = call_fn w2 ->
  truthy custom = false ->
  findUp_sync w1 supported_names dir = Some p -> p <> "" ->
  require w1 p = Returns m ->
  truthy (prop m "default") = true ->
  require w2 p = Returns (prop m "default") ->
  truthy (prop (prop m "default") "default") = false ->
  loadConfig h w1 phase dir custom s = loadConfig h w2 phase dir custom s.
Proof.
  intros h [f1 r1 c1] [f2 r2 c2] phase dir custom s p m Hf Hcall Hc Hp Hne
    Hr1 Hd Hr2 Hdd.
  cbn [findUp_sync call_fn require] in Hf, Hcall, Hp, Hr1, Hr2. subst f2 c2.
  rewrite (loadConfig_file h (mkWorld f1 r1 c1) phase dir custom p s Hc Hp Hne).
  rewrite (loadConfig_file h (mkWorld f1 r2 c1) phase dir custom p s Hc Hp Hne).
  assert (Hload : forall s0,
             load_userConfig h (mkWorld f1 r1 c1) phase p s0
             = load_userConfig h (mkWorld f1 r2 c1) phase p s0).
  { intros s0.
    rewrite (load_userConfig_run h (mkWorld f1 r1 c1) phase p s0 m Hr1
               (truthy_prop_not_nullish _ _ Hd)).
    rewrite (load_userConfig_run h (mkWorld f1 r2 c1) phase p s0 _ Hr2
               (truthy_not_nullish _ Hd)).
    rewrite Hd, Hdd. reflexivity. }
  destruct (load_userConfig h (mkWorld f1 r2 c1) phase p
              (looked_up supported_names dir s)) as [[u|e] s1] eqn:H2.
  - pose proof (Hload (looked_up supported_names dir s)) as H1.
    rewrite H2 in H1.
    rewrite (bind_Ok _ _ _ _ _ H1), (bind_Ok _ _ _ _ _ H2). reflexivity.
  - pose proof (Hload (looked_up supported_names dir s)) as H1.
    rewrite H2 in H1.
    rewrite (bind_Throw _ _ _ _ _ H1), (bind_Throw _ _ _ _ _ H2). reflexivity.
Qed.

Lemma default_export_preferred_witness :
  let config := record [("distDir", VStr "build")] in
  loadConfig example_host
    (world_with_config
       (record [("default", config); ("distDir", VStr "public")])
       (Returns VUndefined))
    "phase-production-build" "/app" VUndefined initial_state
  = loadConfig example_host (world_with_config config (Returns VUndefined))
      "phase-production-build" "/app" VUndefined initial_state.
Proof.
  intros config.
  apply (default_export_preferred example_host
           (world_with_config
              (record [("default", config); ("distDir", VStr "public")])
              (Returns VUndefined))
           (world_with_config config (Returns VUndefined))
           "phase-production-build" "/app" VUndefined initial_state
           "/app/next.config.js"
           (record [("default", config); ("distDir", VStr "public")])
           eq_refl eq_refl eq_refl eq_refl ltac:(discriminate) eq_refl eq_refl
           eq_refl eq_refl).
Defined.

(** X13: a configuration file that cannot be used ends the call with what
    went wrong, after the lookup and the [require] and nothing else: what
    the module raised while loading; a [TypeError] when the module exports
    [null] or [undefined]; what the exported function raised when it was
    called. *)
Theorem unusable_module : forall h w phase dir custom s p,
  truthy custom = false ->
  findUp_sync w supported_names dir = Some p -> p <> "" ->
  let s1 := {| used := used s;
               trace := (trace s ++ [EvFindUp supported_names dir;
                                     EvRequire p])%list |} in
  (forall what,
     require w p = Raises what ->
     loadConfig h w phase dir custom s = (Throw (Foreign what), s1))
  /\ (forall m,
        require w p = Returns m -> nullish m = true ->
        loadConfig h w phase dir custom s
        = (Throw (TypeError ("Cannot read property 'default' of " ++ toString m)),
           s1))
  /\ (forall m f what,
        require w p = Returns m -> nullish m = false ->
        (if truthy (prop m "default") then prop m "default" else m) = VFun f ->
        call_fn w f [VStr phase; helpers h] = Raises what ->
        loadConfig h w phase dir custom s
        = (Throw (Foreign what),
           {| used := used s;
              trace := (trace s ++ [EvFindUp supported_names dir; EvRequire p;
                                    EvCall f [VStr phase; helpers h]])%list |})).
Proof.
  intros h w phase dir custom s p Hc Hp Hne s1.
  rewrite (loadConfig_file h w phase dir custom p s Hc Hp Hne).
  assert (Hs1 : {| used := used (looked_up supported_names dir s);
                   trace := (trace (looked_up supported_names dir s)
                             ++ [EvRequire p])%list |} = s1).
  { unfold looked_up, s1. cbn [used trace]. rewrite <- app_assoc. reflexivity. }
  split; [|split].
  - intros what Hr. apply bind_Throw. unfold load_userConfig.
    rewrite bind_log, Hs1, Hr. reflexivity.
  - intros m Hr Hnull. apply bind_Throw. unfold load_userConfig.
    rewrite bind_log, Hs1, Hr. unfold foreign. rewrite bind_ret.
    apply bind_Throw. unfold get. rewrite Hnull. reflexivity.
  - intros m f what Hr Hnull Hf Hcall. apply bind_Throw.
    rewrite (load_userConfig_run h w phase p _ m Hr Hnull), Hs1, Hf.
    unfold normalizeConfig. cbn [is_function]. apply bind_Throw.
    unfold call. rewrite bind_log, Hcall. unfold foreign, throw, s1.
    cbn [used trace]. rewrite <- app_assoc. reflexivity.
Qed.

Lemma unusable_module_witness :
  loadConfig example_host (world_with_config VNull (Returns VUndefined))
    "phase-production-build" "/app" VUndefined initial_state
  = (Throw (TypeError "Cannot read property 'default' of null"),
     {| used := false;
        trace := [EvFindUp supported_names "/app";
                  EvRequire "/app/next.config.js"] |}).
Proof.
  destruct (unusable_module example_host
              (world_with_config VNull (Returns VUndefined))
              "phase-production-build" "/app" VUndefined initial_state
              "/app/next.config.js" eq_refl eq_refl ltac:(discriminate))
    as (_ & Hnull & _).
  apply (Hnull VNull eq_refl eq_refl).
Defined.

(** ** Loading a returned configuration again *)

Section Reload.

Variable h : host.

(** No default value has a [constructor] of its own. *)
Lemma default_without_constructor k :
  let d := prop (defaultConfig h) k in
  lookup "constructor"
    (spread_of (if truthy d then d else VObj "Object" Fresh [])) = None.
Proof.
  cbv zeta. unfold defaultConfig. cbn [prop]. unfold lookup_or.
  destruct (lookup k (default_props h)) as [x|] eqn:Hx.
  - apply lookup_In in Hx. unfold default_props in Hx. cbn [In] in Hx.
    repeat (destruct Hx as [Hx|Hx]; [injection Hx as <- <-; reflexivity|]).
    contradiction.
  - unfold inherited.
    destruct (k =? "constructor"); [reflexivity|].
    destruct ((_ =? "Promise") && _); [reflexivity|].
    destruct (existsb _ _); reflexivity.
Qed.

Lemma merge_over_default_plain k v :
  is_plain_object v = true ->
  is_plain_object (merge_over_default h k v) = true.
Proof.
  intros Hplain. unfold merge_over_default, is_plain_object at 1.
  cbn [truthy andb prop]. unfold lookup_or.
  rewrite lookup_spread_into, lookup_spread_literal.
  destruct (lookup "constructor" (spread_of v)) as [c|] eqn:Hc.
  - apply lookup_spread_of_prop in Hc. unfold is_plain_object in Hplain.
    apply andb_true_iff in Hplain as [_ Hctor]. rewrite Hc in Hctor.
    exact Hctor.
  - rewrite (default_without_constructor k). reflexivity.
Qed.

Lemma lookup_merge_over_default k v j :
  lookup j (spread_of (merge_over_default h k v)) =
  match lookup j (spread_of v) with
  | Some x => Some x
  | None =>
      lookup j (spread_of (if truthy (prop (defaultConfig h) k)
                           then prop (defaultConfig h) k
                           else VObj "Object" Fresh []))
  end.
Proof.
  unfold merge_over_default. cbn [spread_of].
  rewrite lookup_spread_into, lookup_spread_literal. reflexivity.
Qed.

(** Merging what was merged changes no property. *)
Lemma merged_value_again k uv :
  same_properties (merged_value h k (merged_value h k uv)) (merged_value h k uv).
Proof.
  unfold merged_value at 2 3.
  destruct (is_plain_object uv) eqn:Hplain.
  - pose proof (merge_over_default_plain k uv Hplain) as Hp1.
    unfold merged_value. rewrite Hp1. right.
    split; [apply merge_over_default_plain, Hp1|]. split; [exact Hp1|].
    intros j. rewrite (lookup_merge_over_default k (merge_over_default h k uv)).
    rewrite (lookup_merge_over_default k uv).
    destruct (lookup j (spread_of uv)); [reflexivity|].
    destruct (lookup j _); reflexivity.
  - unfold merged_value. rewrite Hplain. left. reflexivity.
Qed.

(** Merging a default value over itself changes no property. *)
Lemma merged_value_default k d :
  lookup k (default_props h) = Some d ->
  same_properties (merged_value h k d) d.
Proof.
  intros Hd. apply lookup_In in Hd. unfold default_props in Hd.
  cbn [In] in Hd.
  repeat (destruct Hd as [Hd|Hd];
          [injection Hd as <- <-;
           first [ left; reflexivity
                 | right; split; [reflexivity|]; split; [reflexivity|];
                   intros j; reflexivity ]
          |]).
  contradiction.
Qed.

End Reload.

Lemma same_properties_not_plain a b :
  same_properties a b -> is_plain_object b = false -> a = b.
Proof. intros [H|(_ & H & _)] Hb; [exact H | congruence]. Qed.

(** X14: a configuration that [assignDefaults] returned can be handed back
    to [loadConfig] as inline configuration: the call returns, and the
    record it returns holds, under every key, the same value as the first
    one, or a plain record with the same properties where the first held a
    plain record; a string under [configOrigin] is kept, so the second
    record does not say ['server']. *)
Theorem reload_keeps_values : forall h (u : props) s w phase dir s2,
  sets_reserved_distDir u = false ->
  exists rp s' rp2 s2',
    assignDefaults h u s = (Ok (VObj "Object" Fresh rp), s')
    /\ loadConfig h w phase dir (VObj "Object" Fresh rp) s2
       = (Ok (VObj "Object" Fresh rp2), s2')
    /\ (forall k,
          match lookup k rp2, lookup k rp with
          | Some a, Some b => same_properties a b
          | None, None => True
          | _, _ => False
          end)
    /\ (forall c,
          lookup "configOrigin" rp = Some (VStr c) ->
          lookup "configOrigin" rp2 = Some (VStr c)).
Proof.
  intros h u s w phase dir s2 Hres.
  rewrite (assignDefaults_full h u s Hres).
  set (rp := spread_into (spread_into [] (default_props h)) (assigned h u)).
  assert (Hlook : forall k,
             lookup k rp =
             match lookup k u with
             | Some uv => Some (merged_value h k uv)
             | None => lookup k (default_props h)
             end) by (intros k; apply lookup_merged_result).
  assert (Hpub : sets_reserved_distDir (with_origin "server" (VObj "Object" Fresh rp))
                 = false).
  { rewrite reserved_with_origin. unfold own_distDir_is_public, lookup_or.
    cbn [spread_of]. rewrite Hlook.
    unfold sets_reserved_distDir, lookup_or in Hres.
    destruct (lookup "distDir" u) as [uv|].
    - apply strict_eq_string_false, merged_value_not_public, Hres.
    - reflexivity. }
  assert (Hagain : forall k,
             lookup k (with_origin "server" (VObj "Object" Fresh rp))
             = lookup k rp).
  { intros k. rewrite lookup_with_origin. cbn [spread_of].
    destruct (lookup k rp) eqn:Hk; [reflexivity|].
    destruct (String.eqb_spec "configOrigin" k) as [<-|_]; [|reflexivity].
    rewrite Hlook in Hk. destruct (lookup "configOrigin" u); discriminate Hk. }
  assert (Hsame : forall k,
            match lookup k
                    (spread_into (spread_into [] (default_props h))
                       (assigned h (with_origin "server" (VObj "Object" Fresh rp)))),
                  lookup k rp with
            | Some a, Some b => same_properties a b
            | None, None => True
            | _, _ => False
            end).
  { intros k. rewrite lookup_merged_result, Hagain.
    destruct (lookup k rp) as [x|] eqn:Hx.
    - rewrite Hlook in Hx. destruct (lookup k u) as [uv|].
      + injection Hx as <-. apply merged_value_again.
      + apply merged_value_default, Hx.
    - rewrite Hlook in Hx. destruct (lookup k u); [discriminate Hx|].
      rewrite Hx. exact I. }
  exists rp. eexists. eexists. eexists.
  split; [reflexivity|]. split.
  - rewrite (loadConfig_inline h w phase dir (VObj "Object" Fresh rp) eq_refl).
    rewrite (assignDefaults_full h _ s2 Hpub). reflexivity.
  - split; [exact Hsame|].
    intros c Hc. specialize (Hsame "configOrigin"). rewrite Hc in Hsame.
    destruct (lookup "configOrigin" _) as [a|]; [|contradiction].
    f_equal. apply (same_properties_not_plain _ _ Hsame).
    apply is_plain_object_VStr.
Qed.

Lemma reload_keeps_values_witness :
  let u := with_origin CONFIG_FILE
             (record [("onDemandEntries", record [("maxInactiveAge", VNum 5)])]) in
  exists rp s' rp2 s2',
    assignDefaults example_host u initial_state
    = (Ok (VObj "Object" Fresh rp), s')
    /\ loadConfig example_host (world_with_file "README.md")
         "phase-production-server" "/app" (VObj "Object" Fresh rp) initial_state
       = (Ok (VObj "Object" Fresh rp2), s2')
    /\ (forall c,
          lookup "configOrigin" rp = Some (VStr c) ->
          lookup "configOrigin" rp2 = Some (VStr c)).
Proof.
  intros u.
  destruct (reload_keeps_values example_host u initial_state
              (world_with_file "README.md") "phase-production-server" "/app"
              initial_state eq_refl)
    as (rp & s' & rp2 & s2' & H1 & H2 & _ & H4).
  exists rp, s', rp2, s2'. split; [exact H1|]. split; [exact H2 | exact H4].
Defined.

(** A configuration that never mentions [experimental], loaded, then
    handed back inline twice: the first reload prints nothing, because
    [experimental] is still the object of [defaultConfig]; it returns a
    copy of it, so the second reload prints the warning. *)
Example reload_example :
  exists rp s' rp2 s2' rp3 s3',
    assignDefaults example_host
      (with_origin CONFIG_FILE
         (record [("onDemandEntries", record [("maxInactiveAge", VNum 5)])]))
      initial_state
    = (Ok (VObj "Object" Fresh rp), s')
    /\ loadConfig example_host (world_with_file "README.md")
         "phase-production-server" "/app" (VObj "Object" Fresh rp) s'
       = (Ok (VObj "Object" Fresh rp2), s2')
    /\ loadConfig example_host (world_with_file "README.md")
         "phase-production-server" "/app" (VObj "Object" Fresh rp2) s2'
       = (Ok (VObj "Object" Fresh rp3), s3')
    /\ lookup "configOrigin" rp2 = Some (VStr "next.config.js")
    /\ lookup "onDemandEntries" rp2
       = Some (record [("maxInactiveAge", VNum 5); ("pagesBufferLength", VNum 2)])
    /\ warnings s2' = []
    /\ warnings s3' = experimental_warning_lines.
Proof.
  do 6 eexists. vm_compute. repeat split; reflexivity.
Qed.

Lemma merged_not_reserved h u origin :
  sets_reserved_distDir u = false ->
  sets_reserved_distDir
    (with_origin origin
       (VObj "Object" Fresh
          (spread_into (spread_into [] (default_props h)) (assigned h u))))
  = false.
Proof.
  intros Hres. rewrite reserved_with_origin.
  unfold own_distDir_is_public, lookup_or. cbn [spread_of].
  rewrite lookup_merged_result.
  unfold sets_reserved_distDir, lookup_or in Hres.
  destruct (lookup "distDir" u) as [uv|].
  - apply strict_eq_string_false, merged_value_not_public, Hres.
  - reflexivity.
Qed.

(** X15: take a user configuration that does not mention [experimental].
    Merging it prints nothing; handing the result back to [loadConfig] as
    inline configuration prints nothing either, because its [experimental]
    is still the object of [defaultConfig]; but that second call returns a
    copy of it, so handing its result back once more sets the flag and
    prints the experimental-feature warning, if the flag was not set. *)
Theorem second_reload_warns : forall h (u : props) s w phase dir,
  sets_reserved_distDir u = false ->
  lookup "experimental" u = None ->
  exists rp rp2 rp3,
    assignDefaults h u s = (Ok (VObj "Object" Fresh rp), s)
    /\ loadConfig h w phase dir (VObj "Object" Fresh rp) s
       = (Ok (VObj "Object" Fresh rp2), s)
    /\ loadConfig h w phase dir (VObj "Object" Fresh rp2) s
       = (Ok (VObj "Object" Fresh rp3), after_warning s).
Proof.
  intros h u s w phase dir Hres Hexp.
  pose proof (merged_not_reserved h u "server" Hres) as Hres2.
  pose proof (merged_not_reserved h _ "server" Hres2) as Hres3.
  exists (spread_into (spread_into [] (default_props h)) (assigned h u)).
  eexists. eexists. split; [|split].
  - rewrite (assignDefaults_full h u s Hres).
    unfold warns_experimental, lookup_or. rewrite Hexp. reflexivity.
  - rewrite loadConfig_inline by reflexivity.
    rewrite (assignDefaults_full h _ s Hres2), warns_with_origin.
    cbn [spread_of]. unfold lookup_or at 1 2.
    rewrite lookup_merged_result, Hexp. reflexivity.
  - rewrite loadConfig_inline by reflexivity.
    rewrite (assignDefaults_full h _ s Hres3), warns_with_origin.
    cbn [spread_of]. unfold lookup_or at 1 2.
    rewrite lookup_merged_result, lookup_with_origin. cbn [spread_of].
    rewrite lookup_merged_result, Hexp. reflexivity.
Qed.

Lemma second_reload_warns_witness :
  exists rp rp2 rp3,
    assignDefaults example_host [("distDir", VStr "build")] initial_state
    = (Ok (VObj "Object" Fresh rp), initial_state)
    /\ loadConfig example_host (world_with_file "README.md")
         "phase-production-server" "/app" (VObj "Object" Fresh rp) initial_state
       = (Ok (VObj "Object" Fresh rp2), initial_state)
    /\ loadConfig example_host (world_with_file "README.md")
         "phase-production-server" "/app" (VObj "Object" Fresh rp2) initial_state
       = (Ok (VObj "Object" Fresh rp3), after_warning initial_state).
Proof.
  apply (second_reload_warns example_host [("distDir", VStr "build")]
           initial_state (world_with_file "README.md")
           "phase-production-server" "/app" eq_refl eq_refl).
Defined.
